(** * Real-time delivery and presence layer of chatapp-backend

    A shallow embedding of the socket layer of the chat backend: the
    handshake middleware [socketAuth], the handlers that [io.on('connection')]
    registers on every socket (join-room, leave-room, send-message, typing,
    disconnect), the presence helpers of [socketUtils] and the REST
    controller [sendMessage], followed by the properties of the
    specification that concern them.

    Modelling conventions.
    - The user collection is a finite map from the user id (the string
      [user._id.toString()]) to the user document; the message collection is
      the list of saved documents in insertion order.
    - The connected sockets are a finite map from the socket id to the
      socket's [userId], [user] and set of joined rooms.
    - A handler is a computation in a small monad that threads the state,
      logs every [emit] together with the set of socket ids it is delivered
      to, and may throw; [try_catch] is the [try { } catch { }] of the source.
    - Every [await] on the database can reject: the outcome of each awaited
      call is an explicit boolean of the input event.  [new Date()] is an
      explicit time stamp of the input event.
    - A handler runs to completion before the next event is taken. *)

From Stdlib Require Import ZArith String List Bool.
From stdpp Require Import gmap strings list fin_maps.

Local Open Scope Z_scope.
Local Open Scope string_scope.
Local Open Scope list_scope.

(** ** Documents *)

(** A document of the [User] collection (models/User.js).  The option
    [timestamps: true] of the schema adds [createdAt] and [updatedAt].
    [password] is optional because [select('-password')] removes it. *)
Record User := mkUser {
  username : string;
  email : string;
  password : option string;
  firstName : string;
  lastName : string;
  avatar : option string;
  isOnline : bool;
  lastSeen : Z;
  friends : list string;
  friendRequests_sent : list string;
  friendRequests_received : list string;
  blockedUsers : list string;
  isActive : bool;
  emailVerified : bool;
  verificationToken : option string;
  resetPasswordToken : option string;
  resetPasswordExpires : option Z;
  createdAt : Z;
  updatedAt : Z
}.

(** The update object of [User.findByIdAndUpdate]: the socket layer only
    ever passes [lastSeen] and, on disconnect and in the presence helpers,
    [isOnline]. *)
Record UserUpdate := mkUpdate {
  set_lastSeen : option Z;
  set_isOnline : option bool
}.

(** Applying an update to a stored document at time [at_]: the named fields
    are overwritten, and the schema's timestamps option stamps [updatedAt]. *)
Definition apply_update (upd : UserUpdate) (at_ : Z) (u : User) : User :=
  {| username := username u;
     email := email u;
     password := password u;
     firstName := firstName u;
     lastName := lastName u;
     avatar := avatar u;
     isOnline := default (isOnline u) (set_isOnline upd);
     lastSeen := default (lastSeen u) (set_lastSeen upd);
     friends := friends u;
     friendRequests_sent := friendRequests_sent u;
     friendRequests_received := friendRequests_received u;
     blockedUsers := blockedUsers u;
     isActive := isActive u;
     emailVerified := emailVerified u;
     verificationToken := verificationToken u;
     resetPasswordToken := resetPasswordToken u;
     resetPasswordExpires := resetPasswordExpires u;
     createdAt := createdAt u;
     updatedAt := at_ |}.

(** [.select('-password')] *)
Definition select_minus_password (u : User) : User :=
  {| username := username u;
     email := email u;
     password := None;
     firstName := firstName u;
     lastName := lastName u;
     avatar := avatar u;
     isOnline := isOnline u;
     lastSeen := lastSeen u;
     friends := friends u;
     friendRequests_sent := friendRequests_sent u;
     friendRequests_received := friendRequests_received u;
     blockedUsers := blockedUsers u;
     isActive := isActive u;
     emailVerified := emailVerified u;
     verificationToken := verificationToken u;
     resetPasswordToken := resetPasswordToken u;
     resetPasswordExpires := resetPasswordExpires u;
     createdAt := createdAt u;
     updatedAt := updatedAt u |}.

(** A document of the [Message] collection, with the fields the handlers
    set and the identifier that [new Message] assigns; [timestamp] is [None]
    where the caller leaves it to the schema.  The schema file
    models/Message.js is not part of the sources at hand: its validation is
    the parameter [Message_validate] below. *)
Record MessageDoc := mkMessage {
  m_id : N;
  sender : string;
  recipient : string;
  content : string;
  messageType : string;
  timestamp : option Z
}.

(** What [populate(path, 'username email')] puts in place of a user id. *)
Record UserRef := mkRef {
  ref_id : string;
  ref_username : string;
  ref_email : string
}.

Record PopulatedMessage := mkPopulated {
  pm_id : N;
  pm_sender : option UserRef;
  pm_recipient : option UserRef;
  pm_content : string;
  pm_messageType : string
}.

(** ** Sockets, emissions and the server state *)

Record Socket := mkSocket {
  userId : string;
  user : User;
  rooms : gset string
}.

Inductive Payload :=
| PRoom (roomId : string)
| PMessage (m : option PopulatedMessage)
| PError (error : string)
| PTyping (typing_userId : string) (typing_isTyping : bool)
| PUserId (uid : string)
| PStatus (status_userId : string) (status : string) (status_lastSeen : option Z).

(** One call of [emit]: the event, its payload, and the ids of the sockets
    it is delivered to, resolved at the time of the call. *)
Record Emission := mkEmission {
  recipients : gset string;
  event : string;
  payload : Payload
}.

Record State := mkState {
  users : gmap string User;
  messages : list MessageDoc;
  sockets : gmap string Socket;
  next_oid : N
}.

Definition with_users (f : gmap string User → gmap string User) (st : State) : State :=
  {| users := f (users st); messages := messages st;
     sockets := sockets st; next_oid := next_oid st |}.

Definition with_messages (f : list MessageDoc → list MessageDoc) (st : State) : State :=
  {| users := users st; messages := f (messages st);
     sockets := sockets st; next_oid := next_oid st |}.

Definition with_sockets (f : gmap string Socket → gmap string Socket) (st : State) : State :=
  {| users := users st; messages := messages st;
     sockets := f (sockets st); next_oid := next_oid st |}.

Definition with_next_oid (f : N → N) (st : State) : State :=
  {| users := users st; messages := messages st;
     sockets := sockets st; next_oid := f (next_oid st) |}.

(** ** The handler monad: state, a log of emissions, exceptions *)

Definition Handler (A : Type) : Type := State → option A * State * list Emission.

Definition ret {A} (a : A) : Handler A := λ st, (Some a, st, []).

Definition throw {A} : Handler A := λ st, (None, st, []).

Definition bind {A B} (m : Handler A) (f : A → Handler B) : Handler B :=
  λ st,
    match m st with
    | (Some a, st1, out1) =>
        let '(r, st2, out2) := f a st1 in (r, st2, out1 ++ out2)
    | (None, st1, out1) => (None, st1, out1)
    end.

Definition try_catch {A} (body handler : Handler A) : Handler A :=
  λ st,
    match body st with
    | (Some a, st1, out1) => (Some a, st1, out1)
    | (None, st1, out1) =>
        let '(r, st2, out2) := handler st1 in (r, st2, out1 ++ out2)
    end.

Definition get_state : Handler State := λ st, (Some st, st, []).

Definition modify (f : State → State) : Handler unit := λ st, (Some tt, f st, []).

Definition emit (to : gset string) (ev : string) (p : Payload) : Handler unit :=
  λ st, (Some tt, st, [mkEmission to ev p]).

(** The monad is used through stdpp's [x ← m; k] and [m;; k]. *)
#[export] Instance Handler_ret : MRet Handler := @ret.
#[export] Instance Handler_bind : MBind Handler := λ A B f m, bind m f.

(** ** socket.io primitives *)

(** The sockets that are in [room]. *)
Definition room_members (st : State) (room : string) : gset string :=
  dom (filter (λ kv : string * Socket, room ∈ rooms kv.2) (sockets st)).

Definition add_room (room : string) (s : Socket) : Socket :=
  {| userId := userId s; user := user s; rooms := {[room]} ∪ rooms s |}.

Definition remove_room (room : string) (s : Socket) : Socket :=
  {| userId := userId s; user := user s; rooms := rooms s ∖ {[room]} |}.

(** [socket.join(room)] *)
Definition socket_join (sid room : string) : Handler unit :=
  modify (with_sockets (alter (add_room room) sid)).

(** [socket.leave(room)] *)
Definition socket_leave (sid room : string) : Handler unit :=
  modify (with_sockets (alter (remove_room room) sid)).

(** [socket.emit(ev, p)]: to this socket only. *)
Definition socket_emit (sid ev : string) (p : Payload) : Handler unit :=
  emit {[sid]} ev p.

(** [socket.to(room).emit(ev, p)]: to the members of [room] except this
    socket. *)
Definition socket_to_emit (sid room ev : string) (p : Payload) : Handler unit :=
  st ← get_state; emit (room_members st room ∖ {[sid]}) ev p.

(** [socket.broadcast.emit(ev, p)]: to every connected socket except this
    one. *)
Definition socket_broadcast_emit (sid ev : string) (p : Payload) : Handler unit :=
  st ← get_state; emit (dom (sockets st) ∖ {[sid]}) ev p.

(** ** Collaborators that are not part of the sources *)

(** The outcome of [jwt.verify(token, process.env.JWT_SECRET)]: the decoded
    payload's [userId], or a thrown error with its [name]. *)
Inductive VerifyResult :=
| Decoded (decoded_userId : string)
| VerifyError (name : string).

(** [jwt.verify] belongs to the jsonwebtoken package and the [Message]
    schema to a file that is not at hand; both are parameters. *)
Class Collaborators := {
  jwt_verify : string → VerifyResult;
  Message_validate : MessageDoc → bool
}.

(** ** The handshake middleware (utils/socketAuth) *)

Record Handshake := mkHandshake {
  auth_token : option string;
  query_token : option string;
  authorization : option string
}.

(** JavaScript truthiness of a possibly undefined string. *)
Definition truthy (o : option string) : bool :=
  match o with
  | Some s => negb (String.eqb s "")
  | None => false
  end.

(** [a || b] *)
Definition js_or (a b : option string) : option string :=
  if truthy a then a else b.

(** [a || d] with a string literal [d] *)
Definition or_default (a : option string) (d : string) : string :=
  if truthy a then default d a else d.

(** [s.replace(pat, rep)] with a string pattern: the first occurrence only. *)
Definition replace_first (pat rep s : string) : string :=
  match String.index 0 pat s with
  | Some n =>
      String.substring 0 n s +:+ rep +:+
      String.substring (n + String.length pat)
                       (String.length s - (n + String.length pat)) s
  | None => s
  end.

Definition handshake_token (hs : Handshake) : option string :=
  js_or (auth_token hs)
        (js_or (query_token hs)
               (replace_first "Bearer " "" <$> authorization hs)).

(** What the middleware passes to [next]: an error, or nothing after having
    set [socket.userId] and [socket.user]. *)
Inductive AuthResult :=
| Denied (reason : string)
| Granted (granted_userId : string) (granted_user : User).

Section Server.
Context `{Collaborators}.

(** [socketAuth].  [db_ok] tells whether the awaited [User.findById]
    resolves; a rejection is thrown inside the inner [try] and so reaches
    the handler of token errors under a name that is neither of the two it
    tests for.  The outermost [catch] ('Authentication failed') guards the
    reading of the handshake, which cannot throw on a handshake of this
    type. *)
Definition socketAuth (users : gmap string User) (hs : Handshake) (db_ok : bool)
  : AuthResult :=
  let token := handshake_token hs in
  if negb (truthy token) then Denied "Authentication required"
  else
    let attempt : string + AuthResult :=
      match jwt_verify (default "" token) with
      | VerifyError name => inl name
      | Decoded uid =>
          if db_ok then
            match users !! uid with
            | None => inr (Denied "User not found")
            | Some user =>
                if negb (isActive user) then inr (Denied "Account deactivated")
                else inr (Granted uid (select_minus_password user))
            end
          else inl "MongooseError"
      end in
    match attempt with
    | inr r => r
    | inl name =>
        if String.eqb name "TokenExpiredError" then Denied "Token expired"
        else if String.eqb name "JsonWebTokenError" then Denied "Invalid token"
        else Denied "Token verification failed"
    end.

(** ** Database calls *)

(** [new Message({...})]: the document receives a fresh identifier. *)
Definition new_Message (sender recipient content messageType : string)
    (timestamp : option Z) : Handler MessageDoc :=
  st ← get_state;
  modify (with_next_oid N.succ);;
  mret (mkMessage (next_oid st) sender recipient content messageType timestamp).

(** [await message.save()]: rejects when the document fails validation or
    when the store does ([ok = false]); otherwise the document is stored. *)
Definition Message_save (doc : MessageDoc) (ok : bool) : Handler MessageDoc :=
  if Message_validate doc && ok
  then modify (with_messages (λ l, l ++ [doc]));; mret doc
  else throw.

Definition populate_user (users : gmap string User) (uid : string) : option UserRef :=
  (λ u, mkRef uid (username u) (email u)) <$> users !! uid.

Definition populate (users : gmap string User) (doc : MessageDoc) : PopulatedMessage :=
  {| pm_id := m_id doc;
     pm_sender := populate_user users (sender doc);
     pm_recipient := populate_user users (recipient doc);
     pm_content := content doc;
     pm_messageType := messageType doc |}.

(** [await Message.findById(id).populate('sender', ..).populate('recipient', ..)] *)
Definition Message_findById_populate (id : N) (ok : bool)
  : Handler (option PopulatedMessage) :=
  if ok
  then st ← get_state;
       mret (populate (users st) <$> List.find (λ d, N.eqb (m_id d) id) (messages st))
  else throw.

(** [await User.findByIdAndUpdate(uid, upd)]: no document, no change. *)
Definition User_findByIdAndUpdate (uid : string) (upd : UserUpdate) (at_ : Z) (ok : bool)
  : Handler unit :=
  if ok then modify (with_users (alter (apply_update upd at_) uid)) else throw.

(** ** The handlers of server.js *)

Record SendData := mkSendData {
  d_recipient : string;
  d_content : string;
  d_messageType : option string
}.

Record TypingData := mkTypingData {
  t_recipient : string;
  t_isTyping : bool
}.

(** The outcomes of the three awaited database calls of send-message. *)
Record SendOutcome := mkSendOutcome {
  save_ok : bool;
  read_ok : bool;
  touch_ok : bool
}.

(** [io.on('connection', socket => { socket.join(socket.userId); ... })] *)
Definition on_connection (sid : string) (socket : Socket) : Handler unit :=
  socket_join sid (userId socket).

Definition on_join_room (sid roomId : string) : Handler unit :=
  socket_join sid roomId;;
  socket_emit sid "joined-room" (PRoom roomId).

Definition on_leave_room (sid roomId : string) : Handler unit :=
  socket_leave sid roomId;;
  socket_emit sid "left-room" (PRoom roomId).

Definition on_send_message (sid : string) (socket : Socket) (data : SendData)
    (now : Z) (db : SendOutcome) : Handler unit :=
  try_catch
    (message ← new_Message (userId socket) (d_recipient data) (d_content data)
                 (or_default (d_messageType data) "text") None;
     savedMessage ← Message_save message (save_ok db);
     populatedMessage ← Message_findById_populate (m_id savedMessage) (read_ok db);
     socket_to_emit sid (d_recipient data) "receive-message" (PMessage populatedMessage);;
     socket_emit sid "message-sent" (PMessage populatedMessage);;
     User_findByIdAndUpdate (userId socket) (mkUpdate (Some now) None) now (touch_ok db))
    (socket_emit sid "message-error" (PError "Failed to send message")).

Definition on_typing (sid : string) (socket : Socket) (data : TypingData) : Handler unit :=
  socket_to_emit sid (t_recipient data) "user-typing"
    (PTyping (userId socket) (t_isTyping data)).

Definition on_disconnect (sid : string) (socket : Socket) (now : Z) (db_ok : bool)
  : Handler unit :=
  try_catch
    (User_findByIdAndUpdate (userId socket) (mkUpdate (Some now) (Some false)) now db_ok;;
     socket_broadcast_emit sid "user-offline" (PUserId (userId socket)))
    (mret tt).

(** ** The presence helpers of socketUtils *)

Definition joinUserRoom (sid : string) (socket : Socket) : Handler unit :=
  if truthy (Some (userId socket))
  then socket_join sid ("user:" +:+ userId socket)
  else mret tt.

Definition leaveUserRoom (sid : string) (socket : Socket) : Handler unit :=
  if truthy (Some (userId socket))
  then socket_leave sid ("user:" +:+ userId socket)
  else mret tt.

(** [now] and [now'] are the two [new Date()] of the source. *)
Definition handleDisconnection (sid : string) (socket : Socket) (now now' : Z)
    (db_ok : bool) : Handler unit :=
  try_catch
    (if truthy (Some (userId socket))
     then User_findByIdAndUpdate (userId socket)
            (mkUpdate (Some now) (Some false)) now db_ok;;
          socket_broadcast_emit sid "user:status"
            (PStatus (userId socket) "offline" (Some now'));;
          leaveUserRoom sid socket
     else mret tt)
    (mret tt).

Definition handleOnlineStatus (sid : string) (socket : Socket) (now : Z)
    (db_ok : bool) : Handler unit :=
  try_catch
    (if truthy (Some (userId socket))
     then User_findByIdAndUpdate (userId socket)
            (mkUpdate (Some now) (Some true)) now db_ok;;
          joinUserRoom sid socket;;
          socket_broadcast_emit sid "user:status"
            (PStatus (userId socket) "online" None)
     else mret tt)
    (mret tt).

(** ** The REST controller (controllers/messageController) *)

Record SendBody := mkSendBody {
  b_recipientId : string;
  b_content : string;
  b_messageType : option string
}.

(** The outcomes of the awaited calls of the controller: the recipient
    look-up, the save, the two [populate] (one flag for both: whichever
    rejects, the same [catch] answers). *)
Record RestOutcome := mkRestOutcome {
  find_ok : bool;
  store_ok : bool;
  populate_ok : bool
}.

(** The response: status code, [message], and the [id] of [data] (the other
    fields of [data] repeat the stored document). *)
Record Response := mkResponse {
  res_status : nat;
  res_message : string;
  res_data_id : option N
}.

(** [await User.findById(id)] *)
Definition User_findById (uid : string) (ok : bool) : Handler (option User) :=
  if ok then st ← get_state; mret (users st !! uid) else throw.

(** [await message.populate('sender', ..); await message.populate('recipient', ..)]:
    each path becomes the referenced user, or [null] when no such user is
    stored. *)
Definition Message_populate (doc : MessageDoc) (ok : bool)
  : Handler PopulatedMessage :=
  if ok then st ← get_state; mret (populate (users st) doc) else throw.

(** [exports.sendMessage].  The response is built from
    [message.sender._id], [message.sender.username], ... and the same for
    the recipient: reading a field of a path that [populate] left [null]
    throws a TypeError, which the [catch] answers like any other error. *)
Definition sendMessage (senderId : string) (body : SendBody) (now : Z)
    (db : RestOutcome) : Handler Response :=
  try_catch
    (recipient ← User_findById (b_recipientId body) (find_ok db);
     match recipient with
     | None => mret (mkResponse 404 "Recipient not found" None)
     | Some _ =>
         message ← new_Message senderId (b_recipientId body) (b_content body)
                      (or_default (b_messageType body) "text") (Some now);
         Message_save message (store_ok db);;
         populated ← Message_populate message (populate_ok db);
         match pm_sender populated, pm_recipient populated with
         | Some _, Some _ =>
             mret (mkResponse 201 "Message sent successfully"
                     (Some (pm_id populated)))
         | _, _ => throw
         end
     end)
    (mret (mkResponse 500 "Server error sending message" None)).

(** ** Events and their dispatch *)

Inductive Input :=
| Connection (sid : string) (hs : Handshake) (db_ok : bool)
| JoinRoom (sid roomId : string)
| LeaveRoom (sid roomId : string)
| SendMessage (sid : string) (data : SendData) (now : Z) (db : SendOutcome)
| Typing (sid : string) (data : TypingData)
| Disconnect (sid : string) (now : Z) (db_ok : bool).

(** Running a handler: the state it leaves and what it emitted; a handler's
    return value is not used by socket.io. *)
Definition exec {A} (m : Handler A) (st : State) : State * list Emission :=
  let '(_, st', out) := m st in (st', out).

(** A socket as socket.io creates it: in the room named after its own id. *)
Definition fresh_socket (sid uid : string) (u : User) : Socket :=
  mkSocket uid u {[sid]}.

(** One event.
    - A connection attempt goes through [io.use(socketAuth)]: denied, the
      client gets [connect_error] with the reason and no socket exists;
      granted, the socket exists and the connection callback runs.  Socket
      ids are unique: an attempt under the id of a connected socket does not
      occur and is ignored.
    - The handlers are registered on the socket by the connection callback:
      an event under an id that is not a connected socket has no handler.
    - On transport close socket.io first takes the socket out of its rooms
      and of the set of connected sockets, then fires 'disconnect'. *)
Definition handle (st : State) (inp : Input) : State * list Emission :=
  match inp with
  | Connection sid hs db_ok =>
      match sockets st !! sid with
      | Some _ => (st, [])
      | None =>
          match socketAuth (users st) hs db_ok with
          | Denied reason =>
              (st, [mkEmission {[sid]} "connect_error" (PError reason)])
          | Granted uid u =>
              let socket := fresh_socket sid uid u in
              exec (on_connection sid socket) (with_sockets (insert sid socket) st)
          end
      end
  | JoinRoom sid roomId =>
      match sockets st !! sid with
      | Some _ => exec (on_join_room sid roomId) st
      | None => (st, [])
      end
  | LeaveRoom sid roomId =>
      match sockets st !! sid with
      | Some _ => exec (on_leave_room sid roomId) st
      | None => (st, [])
      end
  | SendMessage sid data now db =>
      match sockets st !! sid with
      | Some socket => exec (on_send_message sid socket data now db) st
      | None => (st, [])
      end
  | Typing sid data =>
      match sockets st !! sid with
      | Some socket => exec (on_typing sid socket data) st
      | None => (st, [])
      end
  | Disconnect sid now db_ok =>
      match sockets st !! sid with
      | Some socket =>
          exec (on_disconnect sid socket now db_ok) (with_sockets (delete sid) st)
      | None => (st, [])
      end
  end.

(** A sequence of events, with everything emitted along the way. *)
Fixpoint run (st : State) (inputs : list Input) : State * list Emission :=
  match inputs with
  | [] => (st, [])
  | inp :: rest =>
      let '(st1, out1) := handle st inp in
      let '(st2, out2) := run st1 rest in
      (st2, out1 ++ out2)
  end.

(** ** Failed credentials *)

(** The handshake credential fails verification: no token, a token that
    [jwt.verify] rejects (malformed, wrongly signed, expired), a token for a
    user that is not stored, or one for a deactivated account. *)
Definition credential_fails (users : gmap string User) (hs : Handshake) : Prop :=
  truthy (handshake_token hs) = false ∨
  (∃ name, jwt_verify (default "" (handshake_token hs)) = VerifyError name) ∨
  (∃ uid, jwt_verify (default "" (handshake_token hs)) = Decoded uid ∧
          (users !! uid = None ∨
           ∃ u, users !! uid = Some u ∧ isActive u = false)).

End Server.

(** The reasons with which [socketAuth] denies a connection. *)
Definition denial_reasons : list string :=
  ["Authentication required"; "Token expired"; "Invalid token";
   "Token verification failed"; "User not found"; "Account deactivated"].

(** ** Observations on a state and on a log of emissions *)

(** The number of connected sockets of a user. *)
Definition connection_count (st : State) (uid : string) : Z :=
  Z.of_nat (size (filter (λ kv : string * Socket, userId kv.2 = uid) (sockets st))).

(** The stored online flag; [false] for a user without a record. *)
Definition online (st : State) (uid : string) : bool :=
  match users st !! uid with
  | Some u => isOnline u
  | None => false
  end.

(** The emissions of [ev] in a log. *)
Definition emissions_of (ev : string) (out : list Emission) : list Emission :=
  filter (λ e, event e = ev) out.

(** Socket [sid] is delivered an emission of [ev] with payload [p]. *)
Definition receives (out : list Emission) (sid ev : string) (p : Payload) : Prop :=
  ∃ e, e ∈ out ∧ event e = ev ∧ payload e = p ∧ sid ∈ recipients e.

(** No socket is delivered an emission of [ev]. *)
Definition nobody_receives (out : list Emission) (ev : string) : Prop :=
  ∀ e, e ∈ out → event e = ev → recipients e = ∅.

(** The stored record of a user after a write that touches [lastSeen]
    alone, as a send would leave it if nothing else were stamped. *)
Definition with_lastSeen (now : Z) (u : User) : User :=
  {| username := username u;
     email := email u;
     password := password u;
     firstName := firstName u;
     lastName := lastName u;
     avatar := avatar u;
     isOnline := isOnline u;
     lastSeen := now;
     friends := friends u;
     friendRequests_sent := friendRequests_sent u;
     friendRequests_received := friendRequests_received u;
     blockedUsers := blockedUsers u;
     isActive := isActive u;
     emailVerified := emailVerified u;
     verificationToken := verificationToken u;
     resetPasswordToken := resetPasswordToken u;
     resetPasswordExpires := resetPasswordExpires u;
     createdAt := createdAt u;
     updatedAt := updatedAt u |}.

(** Two records agree on every field but [lastSeen], [isOnline] and
    [updatedAt]. *)
Definition same_profile (u u' : User) : Prop :=
  username u' = username u ∧ email u' = email u ∧ password u' = password u ∧
  firstName u' = firstName u ∧ lastName u' = lastName u ∧ avatar u' = avatar u ∧
  friends u' = friends u ∧
  friendRequests_sent u' = friendRequests_sent u ∧
  friendRequests_received u' = friendRequests_received u ∧
  blockedUsers u' = blockedUsers u ∧ isActive u' = isActive u ∧
  emailVerified u' = emailVerified u ∧
  verificationToken u' = verificationToken u ∧
  resetPasswordToken u' = resetPasswordToken u ∧
  resetPasswordExpires u' = resetPasswordExpires u ∧
  createdAt u' = createdAt u.

(** The input events that come from the client of socket [sid] once it is
    connected. *)
Definition from_socket (sid : string) (inp : Input) : bool :=
  match inp with
  | Connection _ _ _ => false
  | JoinRoom s _ | LeaveRoom s _ | SendMessage s _ _ _ | Typing s _
  | Disconnect s _ _ => String.eqb s sid
  end.

(** The connection attempts made under the id [sid]. *)
Definition connects_as (sid : string) (inp : Input) : bool :=
  match inp with
  | Connection s _ _ => String.eqb s sid
  | _ => false
  end.

(** ** The specification's reading of presence, echo and frame *)

(** Presence as the specification has it: the count is not negative and the
    flag is on exactly when the user has a connection. *)
Definition presence_consistent (st : State) (uid : string) : Prop :=
  (0 ≤ connection_count st uid)%Z ∧
  (online st uid = true ↔ (0 < connection_count st uid)%Z).

(** The offline broadcast as the specification has it: a close that
    broadcasts user-offline is the close of the user's last connection. *)
Definition offline_only_on_last_close `{Collaborators}
    (st : State) (sid : string) (now : Z) : Prop :=
  ∀ socket, sockets st !! sid = Some socket →
    emissions_of "user-offline" (handle st (Disconnect sid now true)).2 ≠ [] →
    connection_count st (userId socket) = 1.

(** The sender is delivered a confirmation. *)
Definition confirmed (out : list Emission) (sid : string) : Prop :=
  ∃ p, receives out sid "message-sent" p.

(** The document is in the message store. *)
Definition persisted (st : State) (doc : MessageDoc) : Prop :=
  doc ∈ messages st.

(** The record of [uid] in [st'] is the one in [st] with [lastSeen] set to
    [now] and nothing else changed. *)
Definition only_lastSeen_written (st st' : State) (uid : string) (now : Z) : Prop :=
  ∀ u, users st !! uid = Some u → users st' !! uid = Some (with_lastSeen now u).

(** ** A sample deployment *)

(** A verifier in which the token [jwt:<id>] decodes to the user id [<id>],
    the token [expired] is an expired one and every other token is
    malformed. *)
Definition demo_verify (token : string) : VerifyResult :=
  if String.prefix "jwt:" token
  then Decoded (String.substring 4 (String.length token - 4) token)
  else if String.eqb token "expired" then VerifyError "TokenExpiredError"
  else VerifyError "JsonWebTokenError".

(** A message schema that requires a non-empty [content]. *)
Definition demo : Collaborators :=
  {| jwt_verify := demo_verify;
     Message_validate := λ doc, negb (String.eqb (content doc) "") |}.

Definition demo_user (name : string) (active : bool) : User :=
  mkUser name (name +:+ "@example.org") (Some "$2a$12$hash") name "Doe" None
         false 0 [] [] [] [] active false None None None 0 0.

Definition alice : User := demo_user "alice" true.
Definition bob : User := demo_user "bob" true.
Definition carol : User := demo_user "carol" false.
Definition dave : User := demo_user "dave" true.

(** Four users (Carol's account is deactivated), nobody connected, no
    message yet. *)
Definition demo_init : State :=
  mkState (<["ua" := alice]> (<["ub" := bob]> (<["uc" := carol]>
             (<["ud" := dave]> ∅)))) [] ∅ 0%N.

Definition bearer (uid : string) : Handshake :=
  mkHandshake None None (Some ("Bearer jwt:" +:+ uid)).

(** Alice connected once (a1), Bob twice (b1, b2). *)
Definition demo_live : State :=
  (run (H := demo) demo_init
     [Connection "a1" (bearer "ua") true;
      Connection "b1" (bearer "ub") true;
      Connection "b2" (bearer "ub") true]).1.

(** A socket right after its connection callback. *)
Definition connected_socket (sid uid : string) (u : User) : Socket :=
  add_room uid (fresh_socket sid uid (select_minus_password u)).

Definition hi_bob : SendData := mkSendData "ub" "hi" (Some "text").

(** A well-formed identifier under which no user is stored. *)
Definition nobody : string := "507f1f77bcf86cd799439011".

(** ** Names for what the send-message handler builds *)

(** Every awaited call of a send resolves. *)
Definition all_ok : SendOutcome := mkSendOutcome true true true.

(** The document that [new Message] builds for a send in state [st]. *)
Definition outgoing (st : State) (socket : Socket) (data : SendData) : MessageDoc :=
  mkMessage (next_oid st) (userId socket) (d_recipient data) (d_content data)
            (or_default (d_messageType data) "text") None.

(** The emission of the [catch] branch. *)
Definition failure (sid : string) : Emission :=
  mkEmission {[sid]} "message-error" (PError "Failed to send message").

(** What the read-back after the save returns. *)
Definition read_back (st : State) (doc : MessageDoc) : option PopulatedMessage :=
  populate (users st) <$>
    List.find (λ d, N.eqb (m_id d) (m_id doc)) (messages st ++ [doc]).

(** The write of [lastSeen] by a send, and of [lastSeen] and [isOnline] by a
    disconnect. *)
Definition touch (now : Z) : User → User :=
  apply_update (mkUpdate (Some now) None) now.

Definition go_offline (now : Z) : User → User :=
  apply_update (mkUpdate (Some now) (Some false)) now.

(** Alice alone is connected. *)
Definition demo_alone : State :=
  (run (H := demo) demo_init [Connection "a1" (bearer "ua") true]).1.

(** Alice, Bob (twice) and Dave are connected. *)
Definition demo_four : State :=
  (handle (H := demo) demo_live (Connection "d1" (bearer "ud") true)).1.

(** Bob's two sockets have gone through [handleOnlineStatus]. *)
Definition demo_present : State :=
  (exec (handleOnlineStatus "b2" (connected_socket "b2" "ub" bob) 6 true)
     (exec (handleOnlineStatus "b1" (connected_socket "b1" "ub" bob) 5 true)
        demo_live).1).1.

(** Alice and Dave are connected, Bob is not, and Dave's socket has joined
    the room named by Bob's id. *)
Definition demo_stranger : State :=
  (run (H := demo) demo_alone
     [Connection "d1" (bearer "ud") true; JoinRoom "d1" "ub"]).1.

(** A socket of Bob after [handleOnlineStatus]. *)
Definition present_socket (sid : string) : Socket :=
  add_room "user:ub" (connected_socket sid "ub" bob).

(** * The rest of the socket utilities and of the REST layer *)

(** ** More of socketUtils (utils/socketAuth) *)

(** [isAuthenticated]: [!!socket.userId].  A socket let in by
    [optionalSocketAuth] without a valid token has no [userId]; it is
    modelled with the empty (falsy) string. *)
Definition isAuthenticated (socket : Socket) : bool :=
  truthy (Some (userId socket)).

(** [joinChatRoom]: returns the room joined, or [null]. *)
Definition joinChatRoom (sid : string) (socket : Socket) (roomId : string)
  : Handler (option string) :=
  if truthy (Some (userId socket)) && truthy (Some roomId)
  then socket_join sid ("chat:" +:+ roomId);; mret (Some ("chat:" +:+ roomId))
  else mret None.

(** [leaveChatRoom] *)
Definition leaveChatRoom (sid : string) (socket : Socket) (roomId : string)
  : Handler (option string) :=
  if truthy (Some (userId socket)) && truthy (Some roomId)
  then socket_leave sid ("chat:" +:+ roomId);; mret (Some ("chat:" +:+ roomId))
  else mret None.

(** [emitToUser]: [io.to('user:' + userId).emit(ev, p)], to every member of
    the room. *)
Definition emitToUser (uid ev : string) (p : Payload) : Handler unit :=
  st ← get_state; emit (room_members st ("user:" +:+ uid)) ev p.

(** [emitToChatRoom] *)
Definition emitToChatRoom (roomId ev : string) (p : Payload) : Handler unit :=
  st ← get_state; emit (room_members st ("chat:" +:+ roomId)) ev p.

(** ** The socket rate limiter (utils/socketAuth) *)

(** One call of the middleware that [createSocketRateLimit(maxEvents,
    windowMs)] returns, on its map [eventCounts] from socket ids to the
    times of the recorded events: [true] for [next()], [false] for
    [next(new Error('Rate limit exceeded'))]. *)
Definition createSocketRateLimit (maxEvents windowMs : Z)
    (eventCounts : gmap string (list Z)) (socketId : string) (now : Z)
  : bool * gmap string (list Z) :=
  let windowStart := now - windowMs in
  let eventCounts1 :=
    match eventCounts !! socketId with
    | Some recorded =>
        <[socketId := filter (λ time, (windowStart < time)%Z) recorded]> eventCounts
    | None => eventCounts
    end in
  let events := default [] (eventCounts1 !! socketId) in
  if (maxEvents <=? Z.of_nat (length events))%Z
  then (false, eventCounts1)
  else (true, <[socketId := events ++ [now]]> eventCounts1).

(** A sequence of calls [(socketId, now)] with the decision on each. *)
Fixpoint limiter_run (maxEvents windowMs : Z) (eventCounts : gmap string (list Z))
    (calls : list (string * Z)) : list (string * Z * bool) * gmap string (list Z) :=
  match calls with
  | [] => ([], eventCounts)
  | (socketId, now) :: rest =>
      let '(ok, eventCounts1) :=
        createSocketRateLimit maxEvents windowMs eventCounts socketId now in
      let '(log, eventCounts2) := limiter_run maxEvents windowMs eventCounts1 rest in
      ((socketId, now, ok) :: log, eventCounts2)
  end.

(** The times of the calls of [socketId] that were let through. *)
Definition accepted (socketId : string) (log : list (string * Z * bool)) : list Z :=
  omap (λ c : string * Z * bool,
          if decide (c.1.1 = socketId) then (if c.2 then Some c.1.2 else None)
          else None) log.

(** The calls come in the order of their times. *)
Fixpoint in_time_order (calls : list (string * Z)) : Prop :=
  match calls with
  | [] => True
  | c :: rest => (∀ c', c' ∈ rest → (c.2 ≤ c'.2)%Z) ∧ in_time_order rest
  end.

(** ** The HTTP rate limiter (utils/authMiddleware) *)

Inductive RateDecision :=
| RatePass
| TooManyRequests (status : nat) (message : string) (retryAfter : option Z).

(** [Math.ceil(windowMs / 1000)].  The division is one of doubles.  For an
    integer window from 0 to 2^53 the quotient is below 2^44, where two
    neighbouring doubles are less than 2/1000 apart, so a quotient that is
    not an integer (it is at least 1/1000 away from one) is not rounded to
    the integer below it, and [Math.ceil] returns the integer ceiling.
    Outside that range the result is not modelled. *)
Definition retry_after (windowMs : Z) : option Z :=
  if (0 <=? windowMs)%Z && (windowMs <=? 2 ^ 53)%Z
  then Some (- ((- windowMs) / 1000))%Z
  else None.

(** One call of the middleware that [createRateLimit(windowMs, max, message)]
    returns, on its map [requests] from client addresses to request times. *)
Definition createRateLimit (windowMs max : Z) (message : string)
    (requests : gmap string (list Z)) (ip : string) (now : Z)
  : RateDecision * gmap string (list Z) :=
  let windowStart := now - windowMs in
  let requests1 :=
    match requests !! ip with
    | Some recorded =>
        <[ip := filter (λ time, (windowStart < time)%Z) recorded]> requests
    | None => requests
    end in
  let userRequests := default [] (requests1 !! ip) in
  if (max <=? Z.of_nat (length userRequests))%Z
  then (TooManyRequests 429 message (retry_after windowMs), requests1)
  else (RatePass, <[ip := userRequests ++ [now]]> requests1).

(** ** Deleting a message (controllers/messageController) *)

Record DeleteOutcome := mkDeleteOutcome {
  lookup_ok : bool;
  remove_ok : bool
}.

(** [await Message.findById(id)] *)
Definition Message_findById (id : N) (ok : bool) : Handler (option MessageDoc) :=
  if ok
  then st ← get_state; mret (List.find (λ d, N.eqb (m_id d) id) (messages st))
  else throw.

(** The collection without the first document stored under [id]. *)
Fixpoint remove_first (id : N) (l : list MessageDoc) : list MessageDoc :=
  match l with
  | [] => []
  | d :: rest => if N.eqb (m_id d) id then rest else d :: remove_first id rest
  end.

(** [await Message.findByIdAndDelete(id)] *)
Definition Message_findByIdAndDelete (id : N) (ok : bool) : Handler unit :=
  if ok then modify (with_messages (remove_first id)) else throw.

(** [exports.deleteMessage]; [res.json] answers with status 200. *)
Definition deleteMessage (messageId : N) (currentUserId : string)
    (db : DeleteOutcome) : Handler Response :=
  try_catch
    (message ← Message_findById messageId (lookup_ok db);
     match message with
     | None => mret (mkResponse 404 "Message not found" None)
     | Some m =>
         if negb (String.eqb (sender m) currentUserId)
         then mret (mkResponse 403 "Not authorized to delete this message" None)
         else Message_findByIdAndDelete messageId (remove_ok db);;
              mret (mkResponse 200 "Message deleted successfully" None)
     end)
    (mret (mkResponse 500 "Server error deleting message" None)).

(** ** The HTTP authentication middleware (utils/authMiddleware) *)

(** What the middleware does with the request: answers it, or sets
    [req.user] and calls [next]. *)
Inductive HttpAuth :=
| Rejected (status : nat) (message : string)
| Next (req_user : User).

(** The transport closes of socket [sid]. *)
Definition disconnects (sid : string) (inp : Input) : bool :=
  match inp with
  | Disconnect s _ _ => String.eqb s sid
  | _ => false
  end.

(** The store of messages is well formed: the identifiers in use are below
    the next one to be assigned, and no two documents share one. *)
Definition store_wf (st : State) : Prop :=
  (∀ d, d ∈ messages st → (m_id d < next_oid st)%N) ∧
  NoDup (m_id <$> messages st).

Section Middleware.
Context `{Collaborators}.

(** [optionalSocketAuth]: always calls [next()]; the result is the identity
    it has set on the socket, if any. *)
Definition optionalSocketAuth (users : gmap string User) (hs : Handshake)
    (db_ok : bool) : option (string * User) :=
  let token := handshake_token hs in
  if truthy token then
    match jwt_verify (default "" token) with
    | VerifyError _ => None
    | Decoded uid =>
        if db_ok then
          match users !! uid with
          | Some user =>
              if isActive user then Some (uid, select_minus_password user)
              else None
          | None => None
          end
        else None
    end
  else None.

(** [authMiddleware] on the value of the Authorization header.  As in
    [socketAuth], a rejected [User.findById] is caught with the token
    errors; the outermost [catch] (status 500) guards [req.header], which
    does not throw. *)
Definition authMiddleware (users : gmap string User) (authHeader : option string)
    (db_ok : bool) : HttpAuth :=
  if negb (truthy authHeader) then Rejected 401 "No token, authorization denied"
  else
    let header := default "" authHeader in
    if negb (String.prefix "Bearer " header) then Rejected 401 "Invalid token format"
    else
      let token := String.substring 7 (String.length header - 7) header in
      if negb (truthy (Some token)) then Rejected 401 "No token provided"
      else
        let attempt : string + HttpAuth :=
          match jwt_verify token with
          | VerifyError name => inl name
          | Decoded uid =>
              if db_ok then
                match users !! uid with
                | None => inr (Rejected 401 "User not found")
                | Some user =>
                    if negb (isActive user)
                    then inr (Rejected 401 "Account is deactivated")
                    else inr (Next (select_minus_password user))
                end
              else inl "MongooseError"
          end in
        match attempt with
        | inr r => r
        | inl name =>
            if String.eqb name "TokenExpiredError" then Rejected 401 "Token expired"
            else if String.eqb name "JsonWebTokenError" then Rejected 401 "Invalid token"
            else Rejected 401 "Token verification failed"
        end.

(** [optionalAuth]: always calls [next()]; the result is [req.user]. *)
Definition optionalAuth (users : gmap string User) (authHeader : option string)
    (db_ok : bool) : option User :=
  if truthy authHeader && String.prefix "Bearer " (default "" authHeader) then
    let header := default "" authHeader in
    let token := String.substring 7 (String.length header - 7) header in
    match jwt_verify token with
    | VerifyError _ => None
    | Decoded uid =>
        if db_ok then
          match users !! uid with
          | Some user =>
              if isActive user then Some (select_minus_password user) else None
          | None => None
          end
        else None
    end
  else None.

End Middleware.

(** * Properties *)

Section Properties.
Context `{Collaborators}.

(** ** The handlers as equations *)

Ltac unfold_handler :=
  unfold exec, on_connection, on_join_room, on_leave_room, on_send_message,
    on_typing, on_disconnect, try_catch, socket_join, socket_leave,
    socket_emit, socket_to_emit, socket_broadcast_emit, new_Message,
    Message_save, Message_findById_populate, User_findByIdAndUpdate,
    emit, modify, get_state, throw, mbind, mret, Handler_bind, Handler_ret,
    bind, ret.

Lemma exec_on_send_message st sid socket data now db :
  exec (on_send_message sid socket data now db) st =
  let doc := outgoing st socket data in
  let st0 := with_next_oid N.succ st in
  if negb (Message_validate doc && save_ok db) then (st0, [failure sid])
  else
    let st1 := with_messages (λ l, l ++ [doc]) st0 in
    if negb (read_ok db) then (st1, [failure sid])
    else
      let out :=
        [mkEmission (room_members st (d_recipient data) ∖ {[sid]})
                    "receive-message" (PMessage (read_back st doc));
         mkEmission {[sid]} "message-sent" (PMessage (read_back st doc))] in
      if touch_ok db
      then (with_users (alter (touch now) (userId socket)) st1, out)
      else (st1, out ++ [failure sid]).
Proof.
  unfold_handler. fold (outgoing st socket data). cbn zeta.
  destruct (Message_validate (outgoing st socket data)), (save_ok db),
    (read_ok db), (touch_ok db); reflexivity.
Qed.

Lemma exec_on_disconnect st sid socket now db_ok :
  exec (on_disconnect sid socket now db_ok) st =
  if db_ok
  then (with_users (alter (go_offline now) (userId socket)) st,
        [mkEmission (dom (sockets st) ∖ {[sid]}) "user-offline"
                    (PUserId (userId socket))])
  else (st, []).
Proof. unfold_handler. destruct db_ok; reflexivity. Qed.

Lemma exec_on_typing st sid socket data :
  exec (on_typing sid socket data) st =
  (st, [mkEmission (room_members st (t_recipient data) ∖ {[sid]}) "user-typing"
                   (PTyping (userId socket) (t_isTyping data))]).
Proof. reflexivity. Qed.

Lemma exec_on_join_room st sid roomId :
  exec (on_join_room sid roomId) st =
  (with_sockets (alter (add_room roomId) sid) st,
   [mkEmission {[sid]} "joined-room" (PRoom roomId)]).
Proof. reflexivity. Qed.

Lemma exec_on_leave_room st sid roomId :
  exec (on_leave_room sid roomId) st =
  (with_sockets (alter (remove_room roomId) sid) st,
   [mkEmission {[sid]} "left-room" (PRoom roomId)]).
Proof. reflexivity. Qed.

Lemma exec_on_connection st sid socket :
  exec (on_connection sid socket) st =
  (with_sockets (alter (add_room (userId socket)) sid) st, []).
Proof. reflexivity. Qed.


(** ** Rooms and connection counts *)

Lemma elem_of_room_members st room sid :
  sid ∈ room_members st room ↔ ∃ s, sockets st !! sid = Some s ∧ room ∈ rooms s.
Proof.
  unfold room_members. rewrite elem_of_dom. split.
  - intros [s Hs]. apply map_lookup_filter_Some in Hs as [Hs Hr]. eauto.
  - intros (s & Hs & Hr). exists s. by apply map_lookup_filter_Some.
Qed.

Lemma others_after_close (m : gmap string Socket) sid :
  dom (delete sid m) ∖ {[sid]} = dom m ∖ {[sid]}.
Proof.
  rewrite dom_delete_L. apply set_eq. intros x.
  rewrite !elem_of_difference. tauto.
Qed.

Lemma connection_count_nonneg st uid : (0 ≤ connection_count st uid)%Z.
Proof. unfold connection_count. lia. Qed.

Lemma connection_count_close st sid socket :
  sockets st !! sid = Some socket →
  connection_count (with_sockets (delete sid) st) (userId socket) =
  connection_count st (userId socket) - 1.
Proof.
  intros Hs. unfold connection_count. cbn [sockets with_sockets].
  rewrite map_filter_delete, map_size_delete.
  assert (Hf : filter (λ kv : string * Socket, userId kv.2 = userId socket)
                 (sockets st) !! sid = Some socket)
    by (by apply map_lookup_filter_Some).
  rewrite Hf.
  assert (size (filter (λ kv : string * Socket, userId kv.2 = userId socket)
                 (sockets st)) ≠ 0%nat).
  { intros Hz. apply map_size_empty_iff in Hz. rewrite Hz in Hf.
    by rewrite lookup_empty in Hf. }
  lia.
Qed.

(** ** What one event does to the stored users *)

(** An event leaves the users as they are or applies one update to one
    record, and that update never sets [isOnline] to [true]. *)
Lemma handle_users st inp :
  users (handle st inp).1 = users st ∨
  ∃ k upd t, set_isOnline upd ≠ Some true ∧
             users (handle st inp).1 = alter (apply_update upd t) k (users st).
Proof.
  destruct inp as [sid hs ok|sid r|sid r|sid data now db|sid data|sid now ok];
    cbn [handle]; destruct (sockets st !! sid) as [socket|]; try (by left).
  - destruct (socketAuth _ _ _); by left.
  - rewrite exec_on_send_message. cbn zeta.
    destruct (negb _); [by left|]. destruct (negb _); [by left|].
    destruct (touch_ok db); [|by left].
    right. exists (userId socket), (mkUpdate (Some now) None), now. by split.
  - rewrite exec_on_disconnect. destruct ok; [|by left].
    right. exists (userId socket), (mkUpdate (Some now) (Some false)), now.
    by split.
Qed.

Lemma online_after_update st st' k upd t uid :
  users st' = alter (apply_update upd t) k (users st) →
  set_isOnline upd ≠ Some true →
  online st' uid = true → online st uid = true.
Proof.
  intros Hu Hupd. unfold online. rewrite Hu, lookup_alter.
  case_decide as Hk; [subst k|done].
  destruct (users st !! uid) as [u|]; cbn; [|done].
  destruct upd as [l [[]|]]; cbn in *; intros; congruence.
Qed.

Lemma handle_online st inp uid :
  online (handle st inp).1 uid = true → online st uid = true.
Proof.
  destruct (handle_users st inp) as [Hu|(k & upd & t & Hupd & Hu)].
  - unfold online. by rewrite Hu.
  - by apply online_after_update with k upd t.
Qed.

Lemma run_cons st inp rest :
  run st (inp :: rest) =
  ((run (handle st inp).1 rest).1, (handle st inp).2 ++ (run (handle st inp).1 rest).2).
Proof.
  change (run st (inp :: rest)) with
    (let '(st1, out1) := handle st inp in
     let '(st2, out2) := run st1 rest in (st2, out1 ++ out2)).
  destruct (handle st inp) as [st1 out1]. cbn [fst snd].
  by destruct (run st1 rest) as [st2 out2].
Qed.

Lemma run_online st evs uid :
  online (run st evs).1 uid = true → online st uid = true.
Proof.
  revert st. induction evs as [|inp rest IH]; intros st; [done|].
  rewrite run_cons. cbn [fst]. intros Hon.
  by apply (handle_online st inp), IH.
Qed.

Lemma handle_disconnect st sid socket now ok :
  sockets st !! sid = Some socket →
  handle st (Disconnect sid now ok) =
  if ok
  then (with_users (alter (go_offline now) (userId socket))
          (with_sockets (delete sid) st),
        [mkEmission (dom (sockets st) ∖ {[sid]}) "user-offline"
                    (PUserId (userId socket))])
  else (with_sockets (delete sid) st, []).
Proof.
  intros Hs. cbn [handle]. rewrite Hs, exec_on_disconnect.
  cbn [sockets with_sockets]. by rewrite others_after_close.
Qed.

(** C1 (as amended).  The number of a user's connected sockets is never
    negative, and no sequence of socket events turns a stored online flag
    on.  A disconnect whose presence write succeeds leaves the flag of the
    closing socket's user off and that user's count one lower, whatever the
    count then is: with two connections open, closing one leaves
    online = false although one connection remains. *)
Theorem disconnect_clears_online st evs uid :
  (0 ≤ connection_count (run st evs).1 uid)%Z ∧
  (online (run st evs).1 uid = true → online st uid = true) ∧
  ∀ sid socket now,
    sockets (run st evs).1 !! sid = Some socket → userId socket = uid →
    let st' := (handle (run st evs).1 (Disconnect sid now true)).1 in
    online st' uid = false ∧
    connection_count st' uid = connection_count (run st evs).1 uid - 1.
Proof.
  split; [apply connection_count_nonneg|]. split; [apply run_online|].
  intros sid socket now Hs <-. cbn zeta.
  rewrite (handle_disconnect _ _ _ _ _ Hs). cbn [fst]. split.
  - unfold online. cbn [users with_users with_sockets].
    rewrite lookup_alter_eq. by destruct (users _ !! userId socket).
  - by apply connection_count_close.
Qed.


(** ** The presence helpers *)

(** [handleOnlineStatus] turns the flag on whenever it runs, and
    [handleDisconnection] turns it off and broadcasts the offline status
    whenever it runs: neither looks at the user's other connections. *)
Lemma exec_handleOnlineStatus st sid socket now :
  truthy (Some (userId socket)) = true →
  exec (handleOnlineStatus sid socket now true) st =
  (with_sockets (alter (add_room ("user:" +:+ userId socket)) sid)
     (with_users (alter (apply_update (mkUpdate (Some now) (Some true)) now)
                    (userId socket)) st),
   [mkEmission (dom (sockets st) ∖ {[sid]}) "user:status"
               (PStatus (userId socket) "online" None)]).
Proof.
  intros Hu. unfold handleOnlineStatus, joinUserRoom. rewrite Hu.
  unfold_handler. cbn [sockets with_users with_sockets app].
  f_equal. f_equal. f_equal. apply set_eq. intros x.
  by rewrite !elem_of_difference, dom_alter.
Qed.

Lemma exec_handleDisconnection st sid socket now now' :
  truthy (Some (userId socket)) = true →
  exec (handleDisconnection sid socket now now' true) st =
  (with_sockets (alter (remove_room ("user:" +:+ userId socket)) sid)
     (with_users (alter (go_offline now) (userId socket)) st),
   [mkEmission (dom (sockets st) ∖ {[sid]}) "user:status"
               (PStatus (userId socket) "offline" (Some now'))]).
Proof.
  intros Hu. unfold handleDisconnection, leaveUserRoom. rewrite Hu.
  by unfold_handler.
Qed.

(** ** Disconnects and the offline broadcast *)

Lemma emissions_of_app ev out1 out2 :
  emissions_of ev (out1 ++ out2) = emissions_of ev out1 ++ emissions_of ev out2.
Proof. apply filter_app. Qed.

Lemma run_disconnects st sids now :
  NoDup sids →
  (∀ sid, sid ∈ sids → is_Some (sockets st !! sid)) →
  length (emissions_of "user-offline"
            (run st (map (λ sid, Disconnect sid now true) sids)).2)
  = length sids.
Proof.
  intros Hnd. revert st.
  induction Hnd as [|sid sids Hnotin Hnd IH]; intros st Hreg; [done|].
  cbn [map]. rewrite run_cons. cbn [snd].
  destruct (Hreg sid) as [socket Hs]; [by left|].
  rewrite (handle_disconnect _ _ _ _ _ Hs). cbn [fst snd].
  rewrite emissions_of_app, length_app, IH; [done|].
  intros sid' Hin. cbn [sockets with_users with_sockets].
  rewrite lookup_delete_ne; [apply Hreg; by right|].
  intros ->. done.
Qed.

(** C2 (as amended).  Every disconnect of a connected socket whose presence
    write succeeds emits one user-offline broadcast, delivered to all the
    other connected sockets, whether or not the user has connections left;
    a disconnect whose write fails emits nothing.  Closing [n] connections
    one after the other, each write succeeding, therefore produces [n]
    offline broadcasts. *)
Theorem offline_broadcast_per_disconnect st sids now :
  NoDup sids →
  (∀ sid, sid ∈ sids → is_Some (sockets st !! sid)) →
  length (emissions_of "user-offline"
            (run st (map (λ sid, Disconnect sid now true) sids)).2)
  = length sids ∧
  ∀ sid socket,
    sockets st !! sid = Some socket →
    (handle st (Disconnect sid now true)).2 =
      [mkEmission (dom (sockets st) ∖ {[sid]}) "user-offline"
                  (PUserId (userId socket))] ∧
    (handle st (Disconnect sid now false)).2 = [].
Proof.
  intros Hnd Hreg. split; [by apply run_disconnects|].
  intros sid socket Hs. by rewrite !(handle_disconnect _ _ _ _ _ Hs).
Qed.

(** ** Typing *)

(** C7.  A typing event changes nothing in the state: no message and no
    user record is written, and no room membership changes.  All it emits
    is one user-typing signal [{userId, isTyping}] to the members of the
    recipient's room other than the sender; when that room has no member the
    signal reaches nobody, and nothing else happens. *)
Theorem typing_is_ephemeral st sid data :
  (handle st (Typing sid data)).1 = st ∧
  (∀ socket, sockets st !! sid = Some socket →
     (handle st (Typing sid data)).2 =
       [mkEmission (room_members st (t_recipient data) ∖ {[sid]}) "user-typing"
                   (PTyping (userId socket) (t_isTyping data))]) ∧
  (room_members st (t_recipient data) = ∅ →
     ∀ e, e ∈ (handle st (Typing sid data)).2 → recipients e = ∅).
Proof.
  cbn [handle]. destruct (sockets st !! sid) as [socket|] eqn:Hs.
  - rewrite exec_on_typing. cbn [fst snd]. split; [done|]. split.
    + by intros ? [= <-].
    + intros Hempty e ->%list_elem_of_singleton. cbn. rewrite Hempty.
      apply set_eq. intros x. rewrite elem_of_difference.
      split; [intros [[]%not_elem_of_empty _]|intros []%not_elem_of_empty].
  - cbn [fst snd]. split; [done|]. split; [done|].
    intros _ e []%elem_of_nil.
Qed.


(** ** Sending a message *)

Lemma handle_send_message st sid socket data now db :
  sockets st !! sid = Some socket →
  handle st (SendMessage sid data now db) =
  let doc := outgoing st socket data in
  let st0 := with_next_oid N.succ st in
  if negb (Message_validate doc && save_ok db) then (st0, [failure sid])
  else
    let st1 := with_messages (λ l, l ++ [doc]) st0 in
    if negb (read_ok db) then (st1, [failure sid])
    else
      let out :=
        [mkEmission (room_members st (d_recipient data) ∖ {[sid]})
                    "receive-message" (PMessage (read_back st doc));
         mkEmission {[sid]} "message-sent" (PMessage (read_back st doc))] in
      if touch_ok db
      then (with_users (alter (touch now) (userId socket)) st1, out)
      else (st1, out ++ [failure sid]).
Proof. intros Hs. cbn [handle]. rewrite Hs. apply exec_on_send_message. Qed.

Lemma find_app_last {A} (P : A → bool) (l : list A) (x : A) :
  P x = true → ∃ d, List.find P (l ++ [x]) = Some d ∧ P d = true.
Proof.
  intros Hx. induction l as [|y l IH]; cbn.
  - rewrite Hx. eauto.
  - destruct (P y) eqn:Hy; eauto.
Qed.

(** The read-back finds a stored document under the identifier just
    assigned. *)
Lemma read_back_id st doc :
  ∃ pm, read_back st doc = Some pm ∧ pm_id pm = m_id doc.
Proof.
  unfold read_back.
  destruct (find_app_last (λ d, N.eqb (m_id d) (m_id doc)) (messages st) doc)
    as (d & -> & Hd); [apply N.eqb_refl|].
  exists (populate (users st) d). split; [done|]. by apply N.eqb_eq in Hd.
Qed.

Lemma receives_here out sid ev p to :
  mkEmission to ev p ∈ out → sid ∈ to → receives out sid ev p.
Proof. intros Hin Hto. by exists (mkEmission to ev p). Qed.

Lemma sender_is_not_multicast st room sid : sid ∉ room_members st room ∖ {[sid]}.
Proof. rewrite elem_of_difference, elem_of_singleton. tauto. Qed.

(** A send whose save and read-back succeed: what is stored and emitted. *)
Lemma handle_send_saved st sid socket data now db :
  sockets st !! sid = Some socket →
  Message_validate (outgoing st socket data) = true →
  save_ok db = true → read_ok db = true →
  let doc := outgoing st socket data in
  let res := handle st (SendMessage sid data now db) in
  messages res.1 = messages st ++ [doc] ∧
  ∃ tl,
    (tl = [] ∨ tl = [failure sid]) ∧ (touch_ok db = true → tl = []) ∧
    res.2 = mkEmission (room_members st (d_recipient data) ∖ {[sid]})
              "receive-message" (PMessage (read_back st doc))
            :: mkEmission {[sid]} "message-sent" (PMessage (read_back st doc))
            :: tl.
Proof.
  intros Hs Hv Hsave Hread doc res. subst res doc.
  rewrite (handle_send_message _ _ _ _ _ _ Hs). cbn zeta.
  rewrite Hv, Hsave, Hread. cbn [negb andb].
  destruct (touch_ok db); cbn [fst snd messages with_users with_messages
                               with_next_oid app].
  - split; [done|]. exists []. auto.
  - split; [done|]. exists [failure sid]. split; [auto|]. by split.
Qed.

(** A send whose save or read-back fails emits the error to the sender and
    nothing else. *)
Lemma handle_send_unread st sid socket data now db :
  sockets st !! sid = Some socket →
  Message_validate (outgoing st socket data) && save_ok db && read_ok db = false →
  (handle st (SendMessage sid data now db)).2 = [failure sid].
Proof.
  intros Hs Hfail. rewrite (handle_send_message _ _ _ _ _ _ Hs). cbn zeta.
  destruct (Message_validate _ && save_ok db); cbn [negb andb] in *; [|done].
  destruct (read_ok db); [discriminate Hfail|done].
Qed.

(** C4 (as amended).  The sender is delivered message-sent exactly when the
    save and the read-back of the saved message both succeed.  When the save
    fails nothing is stored, there is no receive-message, and the sender
    gets one message-error; when the save succeeds the message is stored,
    also when the read-back then fails and no confirmation follows.  Every
    message-error carries the fixed text 'Failed to send message' and goes
    to the sender alone.  There is a receive-message multicast exactly when
    the save and the read-back both succeed: whenever one of them fails,
    the message-error to the sender is all that is emitted. *)
Theorem confirmation_iff_saved_and_read st sid socket data now db :
  sockets st !! sid = Some socket →
  let doc := outgoing st socket data in
  let res := handle st (SendMessage sid data now db) in
  ((∃ p, receives res.2 sid "message-sent" p) ↔
   Message_validate doc && save_ok db && read_ok db = true) ∧
  (Message_validate doc && save_ok db = false →
   messages res.1 = messages st ∧ emissions_of "receive-message" res.2 = [] ∧
   res.2 = [failure sid]) ∧
  (Message_validate doc && save_ok db = true →
   messages res.1 = messages st ++ [doc]) ∧
  (∀ e, e ∈ res.2 → event e = "message-error" → e = failure sid) ∧
  (Message_validate doc && save_ok db && read_ok db = false →
   res.2 = [failure sid]) ∧
  (emissions_of "receive-message" res.2 = [] ↔
   Message_validate doc && save_ok db && read_ok db = false).
Proof.
  intros Hs doc res.
  assert (Hold :
    ((∃ p, receives res.2 sid "message-sent" p) ↔
     Message_validate doc && save_ok db && read_ok db = true) ∧
    (Message_validate doc && save_ok db = false →
     messages res.1 = messages st ∧ emissions_of "receive-message" res.2 = [] ∧
     res.2 = [failure sid]) ∧
    (Message_validate doc && save_ok db = true →
     messages res.1 = messages st ++ [doc]) ∧
    (∀ e, e ∈ res.2 → event e = "message-error" → e = failure sid)).
  { subst res. rewrite (handle_send_message _ _ _ _ _ _ Hs).
      fold doc. cbn zeta.
      assert (Hnone : ∀ out : list Emission,
                (∀ e, e ∈ out → event e = "message-error") →
                ¬ ∃ p, receives out sid "message-sent" p).
      { intros out Hout (p & e & Hin & Hev & _). apply Hout in Hin. congruence. }
      assert (Hfail : ∀ e, e ∈ [failure sid] → event e = "message-error")
        by (by intros e ->%list_elem_of_singleton).
      destruct (Message_validate doc && save_ok db) eqn:Hsave; cbn [negb andb].
      - destruct (read_ok db) eqn:Hread; cbn [negb].
        + assert (Hsent : ∀ tl, ∃ p,
                    receives (mkEmission (room_members st (d_recipient data) ∖ {[sid]})
                                "receive-message" (PMessage (read_back st doc))
                              :: mkEmission {[sid]} "message-sent"
                                   (PMessage (read_back st doc)) :: tl)
                             sid "message-sent" p).
          { intros tl. eexists. eapply receives_here.
            - right. left.
            - by apply elem_of_singleton. }
          destruct (touch_ok db); cbn [fst snd messages with_users with_messages
                                       with_next_oid app].
          * split; [split; [done|intros _; apply Hsent]|].
            split; [done|]. split; [done|].
            intros e He Hev. repeat (apply elem_of_cons in He as [->|He]);
              try discriminate Hev. by apply elem_of_nil in He.
          * split; [split; [done|intros _; apply Hsent]|].
            split; [done|]. split; [done|].
            intros e He Hev. repeat (apply elem_of_cons in He as [->|He]);
              try discriminate Hev; [done|]. by apply elem_of_nil in He.
        + cbn [fst snd messages with_messages with_next_oid].
          split; [split; [intros Hc; by apply Hnone in Hc|done]|].
          split; [done|]. split; [done|].
          by intros e ->%list_elem_of_singleton.
      - cbn [fst snd messages with_next_oid].
        split; [split; [intros Hc; by apply Hnone in Hc|done]|].
        split; [done|]. split; [done|].
        by intros e ->%list_elem_of_singleton. }
  destruct Hold as (Hsent & Hunsaved & Hsaved & Herror).
  split; [done|]. split; [done|]. split; [done|]. split; [done|].
  assert (Hunread : Message_validate doc && save_ok db && read_ok db = false →
                    res.2 = [failure sid])
    by (intros Hfail; by apply (handle_send_unread st sid socket data now db Hs)).
  split; [done|]. split.
  - intros Hnone.
    destruct (Message_validate doc && save_ok db && read_ok db) eqn:Hall; [|done].
    apply andb_prop in Hall as [Hall Hread]. apply andb_prop in Hall as [Hv Hsave].
    destruct (handle_send_saved st sid socket data now db Hs Hv Hsave Hread)
      as (_ & tl & _ & _ & Hout).
    fold res in Hout. rewrite Hout in Hnone. discriminate Hnone.
  - intros Hfail. by rewrite (Hunread Hfail).
Qed.


(** C5.  While b1 and b2 are in B's personal room and A sends to B from a1,
    the message is stored under a fresh identifier, b1 and b2 are each
    delivered receive-message with the message read back under that
    identifier, a1 is delivered message-sent with the same message, and a1
    is not delivered receive-message. *)
Theorem direct_message_fans_out st a1 sa b1 sb1 b2 sb2 data now db :
  sockets st !! a1 = Some sa →
  sockets st !! b1 = Some sb1 → d_recipient data ∈ rooms sb1 →
  sockets st !! b2 = Some sb2 → d_recipient data ∈ rooms sb2 →
  a1 ≠ b1 → a1 ≠ b2 →
  Message_validate (outgoing st sa data) = true →
  save_ok db = true → read_ok db = true →
  let res := handle st (SendMessage a1 data now db) in
  ∃ pm,
    pm_id pm = m_id (outgoing st sa data) ∧
    outgoing st sa data ∈ messages res.1 ∧
    receives res.2 b1 "receive-message" (PMessage (Some pm)) ∧
    receives res.2 b2 "receive-message" (PMessage (Some pm)) ∧
    receives res.2 a1 "message-sent" (PMessage (Some pm)) ∧
    ¬ ∃ p, receives res.2 a1 "receive-message" p.
Proof.
  intros Ha Hb1 Hr1 Hb2 Hr2 Hne1 Hne2 Hv Hsave Hread res.
  destruct (handle_send_saved st a1 sa data now db Ha Hv Hsave Hread)
    as (Hmsgs & tl & Htl & _ & Hout).
  fold res in Hmsgs, Hout.
  destruct (read_back_id st (outgoing st sa data)) as (pm & Hpm & Hid).
  rewrite Hpm in Hout. exists pm. split; [done|]. split.
  { rewrite Hmsgs. apply elem_of_app. right. by left. }
  assert (Hmember : ∀ b sb, sockets st !! b = Some sb →
            d_recipient data ∈ rooms sb → a1 ≠ b →
            b ∈ room_members st (d_recipient data) ∖ {[a1]}).
  { intros b sb Hb Hr Hne. rewrite elem_of_difference, elem_of_singleton.
    split; [|congruence]. apply elem_of_room_members. eauto. }
  rewrite Hout. repeat split.
  - eapply receives_here; [by left|]. by apply (Hmember b1 sb1).
  - eapply receives_here; [by left|]. by apply (Hmember b2 sb2).
  - eapply receives_here; [right; by left|]. by apply elem_of_singleton.
  - intros (p & e & Hin & Hev & _ & Hto).
    apply elem_of_cons in Hin as [->|Hin].
    { by apply sender_is_not_multicast in Hto. }
    apply elem_of_cons in Hin as [->|Hin]; [discriminate Hev|].
    destruct Htl as [->| ->].
    + by apply elem_of_nil in Hin.
    + apply list_elem_of_singleton in Hin as ->. discriminate Hev.
Qed.

Lemma no_connection_not_owner st uid x s :
  connection_count st uid = 0 → sockets st !! x = Some s → userId s ≠ uid.
Proof.
  unfold connection_count. intros Hzero Hx Hu.
  assert (Hsize : size (filter (λ kv : string * Socket, userId kv.2 = uid)
                          (sockets st)) = 0%nat) by lia.
  apply map_size_empty_iff in Hsize.
  assert (Hin : filter (λ kv : string * Socket, userId kv.2 = uid) (sockets st)
                  !! x = Some s) by (by apply map_lookup_filter_Some).
  rewrite Hsize in Hin. by rewrite lookup_empty in Hin.
Qed.

(** C6 (as amended).  A send to a recipient who has no connection: a
    receive-message reaches only sockets of other users that have joined
    the room named by the recipient's id, never the sender, and nobody at
    all when that room has no member.  The absence of the recipient is no
    obstacle: when the store calls succeed the message is stored, the
    sender is delivered message-sent, the one receive-message goes to the
    members of that room other than the sender, and there is no
    message-error. *)
Theorem send_to_empty_room st sid socket data now db :
  sockets st !! sid = Some socket →
  connection_count st (d_recipient data) = 0 →
  let res := handle st (SendMessage sid data now db) in
  (∀ e x, e ∈ res.2 → event e = "receive-message" → x ∈ recipients e →
     x ≠ sid ∧
     ∃ s, sockets st !! x = Some s ∧ d_recipient data ∈ rooms s ∧
          userId s ≠ d_recipient data) ∧
  (room_members st (d_recipient data) = ∅ →
   nobody_receives res.2 "receive-message") ∧
  (Message_validate (outgoing st socket data) = true →
   save_ok db = true → read_ok db = true → touch_ok db = true →
   messages res.1 = messages st ++ [outgoing st socket data] ∧
   (∃ p, receives res.2 sid "message-sent" p) ∧
   (∃ p, emissions_of "receive-message" res.2 =
         [mkEmission (room_members st (d_recipient data) ∖ {[sid]})
                     "receive-message" p]) ∧
   emissions_of "message-error" res.2 = []).
Proof.
  intros Hs Hzero res.
  assert (Hto : ∀ e, e ∈ res.2 → event e = "receive-message" →
                recipients e = room_members st (d_recipient data) ∖ {[sid]}).
  { subst res. rewrite (handle_send_message _ _ _ _ _ _ Hs). cbn zeta.
    intros e Hin Hev.
    destruct (negb _); [|destruct (negb _); [|destruct (touch_ok db)]];
      cbn [snd app] in Hin;
      repeat (apply elem_of_cons in Hin as [->|Hin]);
      try discriminate Hev; try (by apply elem_of_nil in Hin); done. }
  split; [|split].
  - intros e x Hin Hev Hx. rewrite (Hto e Hin Hev) in Hx.
    apply elem_of_difference in Hx as [Hmember Hne].
    split; [by rewrite elem_of_singleton in Hne|].
    apply elem_of_room_members in Hmember as (s & Hsome & Hroom).
    exists s. split; [done|]. split; [done|].
    by apply (no_connection_not_owner st _ x s).
  - intros Hempty e Hin Hev. rewrite (Hto e Hin Hev), Hempty.
    apply set_eq. intros x. rewrite elem_of_difference.
    split; [intros [[]%not_elem_of_empty _]|intros []%not_elem_of_empty].
  - intros Hv Hsave Hread Htouch.
    destruct (handle_send_saved st sid socket data now db Hs Hv Hsave Hread)
      as (Hmsgs & tl & _ & Htl & Hout).
    fold res in Hmsgs, Hout. rewrite (Htl Htouch) in Hout.
    split; [done|]. rewrite Hout. split; [|split; [|reflexivity]].
    + eexists. eapply receives_here; [right; by left|]. by apply elem_of_singleton.
    + eexists. reflexivity.
Qed.

(** C3 (the behaviour of the socket path).  The send-message handler never
    looks the recipient up: when no user is stored under the recipient, the
    message is saved all the same and the sender is delivered message-sent,
    with no message-error. *)
Theorem send_to_absent_recipient_persists st sid socket data now :
  sockets st !! sid = Some socket →
  users st !! d_recipient data = None →
  Message_validate (outgoing st socket data) = true →
  let res := handle st (SendMessage sid data now all_ok) in
  messages res.1 = messages st ++ [outgoing st socket data] ∧
  (∃ p, receives res.2 sid "message-sent" p) ∧
  emissions_of "message-error" res.2 = [].
Proof.
  intros Hs _ Hv res.
  destruct (handle_send_saved st sid socket data now all_ok Hs Hv eq_refl eq_refl)
    as (Hmsgs & tl & _ & Htl & Hout).
  fold res in Hmsgs, Hout. rewrite (Htl eq_refl) in Hout.
  split; [done|]. rewrite Hout. split; [|reflexivity].
  eexists. eapply receives_here; [right; by left|]. by apply elem_of_singleton.
Qed.

(** The REST controller, by contrast, looks the recipient up first: an
    absent recipient is answered 404 and nothing is stored. *)
Lemma sendMessage_recipient_not_found st senderId body now db :
  find_ok db = true →
  users st !! b_recipientId body = None →
  sendMessage senderId body now db st =
  (Some (mkResponse 404 "Recipient not found" None), st, []).
Proof.
  intros Hfind Habsent.
  unfold sendMessage, try_catch, User_findById, mbind, Handler_bind, bind,
    get_state, mret, Handler_ret, ret.
  rewrite Hfind. cbn. by rewrite Habsent.
Qed.


(** ** Rooms named by the caller *)

(** C9.  join-room takes the caller's room name as it is: a socket that
    names a user's id becomes a member of that user's personal room, and a
    later message sent to that user by another socket is delivered to it as
    receive-message. *)
Theorem join_room_enters_personal_room st e se victim :
  sockets st !! e = Some se →
  let st1 := (handle st (JoinRoom e victim)).1 in
  e ∈ room_members st1 victim ∧
  ∀ a1 sa data now db,
    sockets st1 !! a1 = Some sa → a1 ≠ e → d_recipient data = victim →
    Message_validate (outgoing st1 sa data) = true →
    save_ok db = true → read_ok db = true →
    ∃ p, receives (handle st1 (SendMessage a1 data now db)).2 e
           "receive-message" p.
Proof.
  intros He st1.
  assert (Hin : e ∈ room_members st1 victim).
  { subst st1. cbn [handle]. rewrite He, exec_on_join_room. cbn [fst].
    apply elem_of_room_members. exists (add_room victim se).
    cbn [sockets with_sockets]. rewrite lookup_alter_eq, He. split; [done|].
    cbn. apply elem_of_union. left. by apply elem_of_singleton. }
  split; [done|].
  intros a1 sa data now db Ha Hne Hto Hv Hsave Hread.
  destruct (handle_send_saved st1 a1 sa data now db Ha Hv Hsave Hread)
    as (_ & tl & _ & _ & Hout).
  rewrite Hout, Hto. eexists. eapply receives_here; [by left|].
  rewrite elem_of_difference, elem_of_singleton. split; [done|congruence].
Qed.

(** ** What a send writes to the user records *)

Lemma touch_fields now u :
  lastSeen (touch now u) = now ∧ updatedAt (touch now u) = now ∧
  isOnline (touch now u) = isOnline u ∧ same_profile u (touch now u).
Proof. unfold same_profile. cbn. repeat split. Qed.

(** C10 (as amended).  A send whose store calls all succeed sets the
    sender's [lastSeen] to the current time and, through the schema's
    timestamps option, the sender's [updatedAt]; every other field of the
    sender's record and the record of every other user are left as they
    were. *)
Theorem send_touches_sender_only st sid socket data now :
  sockets st !! sid = Some socket →
  Message_validate (outgoing st socket data) = true →
  let st' := (handle st (SendMessage sid data now all_ok)).1 in
  (∀ u, users st !! userId socket = Some u →
        ∃ u', users st' !! userId socket = Some u' ∧
              lastSeen u' = now ∧ updatedAt u' = now ∧
              isOnline u' = isOnline u ∧ same_profile u u') ∧
  (∀ other, other ≠ userId socket → users st' !! other = users st !! other) ∧
  dom (users st') = dom (users st).
Proof.
  intros Hs Hv st'. subst st'.
  rewrite (handle_send_message _ _ _ _ _ _ Hs). cbn zeta.
  rewrite Hv. cbn [all_ok save_ok read_ok touch_ok negb andb fst users
                   with_users with_messages with_next_oid].
  split; [|split].
  - intros u Hu. exists (touch now u). rewrite lookup_alter_eq, Hu.
    split; [done|]. apply touch_fields.
  - intros other Hne. by rewrite lookup_alter_ne.
  - apply set_eq. intros k. by rewrite dom_alter.
Qed.


(** ** The handshake *)

Lemma socketAuth_denies users hs db_ok :
  credential_fails users hs →
  ∃ reason, socketAuth users hs db_ok = Denied reason ∧ reason ∈ denial_reasons.
Proof.
  unfold socketAuth, denial_reasons. intros Hfail.
  destruct (truthy (handshake_token hs)) eqn:Htok; cbn [negb].
  - destruct Hfail as [Hno|[(name & ->)|(uid & -> & Huser)]]; [congruence| |].
    + destruct (String.eqb name "TokenExpiredError");
        [|destruct (String.eqb name "JsonWebTokenError")];
        eexists; (split; [reflexivity|]); repeat constructor.
    + destruct db_ok.
      * destruct Huser as [->|(u & -> & ->)]; cbn [negb];
          eexists; (split; [reflexivity|]); repeat constructor.
      * cbn. eexists; (split; [reflexivity|]); repeat constructor.
  - eexists; (split; [reflexivity|]); repeat constructor.
Qed.

(** An event under an id that is not a connected socket runs no handler. *)
Lemma handle_unconnected st sid inp :
  sockets st !! sid = None → from_socket sid inp = true →
  handle st inp = (st, []).
Proof.
  intros Hs Hfrom.
  destruct inp; cbn [from_socket] in Hfrom; try discriminate Hfrom;
    apply String.eqb_eq in Hfrom as ->; cbn [handle]; by rewrite Hs.
Qed.

(** Only a connection attempt under the id [sid] can make [sid] a connected
    socket. *)
Lemma handle_keeps_unconnected st sid inp :
  sockets st !! sid = None → connects_as sid inp = false →
  sockets (handle st inp).1 !! sid = None.
Proof.
  intros Hs Hconn.
  destruct inp as [s hs ok|s r|s r|s data now db|s data|s now ok];
    cbn [handle]; destruct (sockets st !! s) as [socket|] eqn:Hsock;
    try done.
  - cbn [connects_as] in Hconn. apply String.eqb_neq in Hconn.
    destruct (socketAuth _ _ _) as [reason|uid u]; [done|].
    rewrite exec_on_connection. cbn [fst sockets with_sockets].
    apply lookup_alter_None. by rewrite lookup_insert_ne.
  - rewrite exec_on_join_room. cbn [fst sockets with_sockets].
    by apply lookup_alter_None.
  - rewrite exec_on_leave_room. cbn [fst sockets with_sockets].
    by apply lookup_alter_None.
  - rewrite exec_on_send_message. cbn zeta.
    destruct (negb _); [done|]. destruct (negb _); [done|].
    by destruct (touch_ok db).
  - rewrite exec_on_disconnect. destruct ok; cbn [fst sockets with_users with_sockets];
      apply lookup_delete_None; by right.
Qed.

Lemma run_unconnected st sid evs :
  sockets st !! sid = None →
  (∀ inp, inp ∈ evs → connects_as sid inp = false) →
  sockets (run st evs).1 !! sid = None ∧
  run st evs = run st (filter (λ inp, from_socket sid inp = false) evs).
Proof.
  revert st. induction evs as [|inp rest IH]; intros st Hs Hconn; [done|].
  assert (Hrest : ∀ i, i ∈ rest → connects_as sid i = false)
    by (intros i Hi; apply Hconn; by right).
  rewrite filter_cons. destruct (from_socket sid inp) eqn:Hfrom.
  - rewrite decide_False by done. rewrite run_cons.
    rewrite (handle_unconnected st sid inp Hs Hfrom). cbn [fst snd app].
    destruct (IH st Hs Hrest) as [Hnone Heq]. split; [done|].
    rewrite <- Heq. by destruct (run st rest).
  - rewrite decide_True by done. rewrite !run_cons. cbn [fst].
    assert (Hs1 : sockets (handle st inp).1 !! sid = None).
    { apply handle_keeps_unconnected; [done|]. apply Hconn. by left. }
    destruct (IH _ Hs1 Hrest) as [Hnone Heq]. split; [done|].
    by rewrite <- Heq.
Qed.

(** C8.  A connection attempt whose credential fails verification is
    answered with a connect error carrying one of the middleware's denial
    reasons and leaves the server as it was: no socket is created.  From
    then on, as long as no new connection is made under that id, the id is
    not a connected socket and the events sent under it run no handler:
    the server's final state and everything it emits are as if those events
    had not been sent. *)
Theorem failed_handshake_is_refused st sid hs db_ok :
  sockets st !! sid = None →
  credential_fails (users st) hs →
  ∃ reason,
    reason ∈ denial_reasons ∧
    handle st (Connection sid hs db_ok) =
      (st, [mkEmission {[sid]} "connect_error" (PError reason)]) ∧
    ∀ evs,
      (∀ inp, inp ∈ evs → connects_as sid inp = false) →
      sockets (run st evs).1 !! sid = None ∧
      run st evs = run st (filter (λ inp, from_socket sid inp = false) evs).
Proof.
  intros Hs Hfail.
  destruct (socketAuth_denies (users st) hs db_ok Hfail) as (reason & Hauth & Hin).
  exists reason. split; [done|]. split.
  - cbn [handle]. by rewrite Hs, Hauth.
  - intros evs Hconn. by apply run_unconnected.
Qed.


(** * Further properties of the socket layer *)

(** ** What the events keep *)

Lemma same_profile_refl u : same_profile u u.
Proof. unfold same_profile. repeat split. Qed.

Lemma same_profile_trans u1 u2 u3 :
  same_profile u1 u2 → same_profile u2 u3 → same_profile u1 u3.
Proof. unfold same_profile. intros H12 H23. intuition congruence. Qed.

Lemma same_profile_update upd t u : same_profile u (apply_update upd t u).
Proof. unfold same_profile. cbn. repeat split. Qed.

Lemma handle_profiles st inp uid :
  match users st !! uid with
  | Some u => ∃ u', users (handle st inp).1 !! uid = Some u' ∧ same_profile u u'
  | None => users (handle st inp).1 !! uid = None
  end.
Proof.
  destruct (handle_users st inp) as [->|(k & upd & t & _ & ->)].
  - destruct (users st !! uid) as [u|]; [|done].
    exists u. split; [done|apply same_profile_refl].
  - rewrite lookup_alter. case_decide as Hk; [subst k|].
    + destruct (users st !! uid) as [u|]; cbn; [|done].
      eexists. split; [done|apply same_profile_update].
    + destruct (users st !! uid) as [u|]; [|done].
      exists u. split; [done|apply same_profile_refl].
Qed.

(** X1.  Socket events neither create nor delete user records, and the
    only fields of a record they ever change are [lastSeen], [isOnline] and
    [updatedAt]: after any sequence of events every stored user is still
    stored, with the same name, e-mail, password, friends, block list and
    activation, and nobody has been added. *)
Theorem socket_events_keep_profiles st evs uid :
  match users st !! uid with
  | Some u => ∃ u', users (run st evs).1 !! uid = Some u' ∧ same_profile u u'
  | None => users (run st evs).1 !! uid = None
  end.
Proof.
  revert st. induction evs as [|inp rest IH]; intros st.
  - cbn. destruct (users st !! uid) as [u|]; [|done].
    exists u. split; [done|apply same_profile_refl].
  - rewrite run_cons. cbn [fst].
    pose proof (handle_profiles st inp uid) as Hstep.
    pose proof (IH (handle st inp).1) as Hrest.
    destruct (users st !! uid) as [u|].
    + destruct Hstep as (u1 & Hu1 & Hp1). rewrite Hu1 in Hrest.
      destruct Hrest as (u2 & Hu2 & Hp2). exists u2. split; [done|].
      by apply same_profile_trans with u1.
    + by rewrite Hstep in Hrest.
Qed.

(** One event leaves the message store as it is or appends one document
    under the identifier that was next; the next identifier never goes
    down. *)
Lemma handle_store st inp :
  (messages (handle st inp).1 = messages st ∧
   (next_oid (handle st inp).1 = next_oid st ∨
    next_oid (handle st inp).1 = N.succ (next_oid st))) ∨
  (∃ doc, messages (handle st inp).1 = messages st ++ [doc] ∧
          m_id doc = next_oid st ∧
          next_oid (handle st inp).1 = N.succ (next_oid st)).
Proof.
  destruct inp as [sid hs ok|sid r|sid r|sid data now db|sid data|sid now ok];
    cbn [handle]; destruct (sockets st !! sid) as [socket|];
    try (left; split; [done|by left]).
  - destruct (socketAuth _ _ _); left; (split; [done|by left]).
  - rewrite exec_on_send_message. cbn zeta.
    destruct (negb _); [left; split; [done|by right]|].
    right. exists (outgoing st socket data).
    destruct (negb _); [done|]. by destruct (touch_ok db).
  - rewrite exec_on_disconnect. destruct ok; left; (split; [done|by left]).
Qed.

(** X2.  The socket layer only ever appends to the message store: after any
    sequence of events the messages stored before are still there, first
    and in the same order. *)
Theorem messages_append_only st evs :
  ∃ new, messages (run st evs).1 = messages st ++ new.
Proof.
  revert st. induction evs as [|inp rest IH]; intros st.
  - exists []. cbn. by rewrite app_nil_r.
  - rewrite run_cons. cbn [fst].
    destruct (IH (handle st inp).1) as [new Hnew]. rewrite Hnew.
    destruct (handle_store st inp) as [[-> _]|(doc & -> & _)].
    + by exists new.
    + exists (doc :: new). by rewrite <- app_assoc.
Qed.

Lemma handle_store_wf st inp : store_wf st → store_wf (handle st inp).1.
Proof.
  intros [Hfresh Hnd]. unfold store_wf.
  destruct (handle_store st inp) as [[-> Hnext]|(doc & -> & Hid & ->)].
  - split; [|done]. intros d Hd. apply Hfresh in Hd. destruct Hnext as [-> | ->]; lia.
  - split.
    + intros d [Hd| ->%list_elem_of_singleton]%elem_of_app; [apply Hfresh in Hd|]; lia.
    + rewrite fmap_app. apply NoDup_app. split; [done|]. split.
      * intros x Hx ->%list_elem_of_singleton.
        apply list_elem_of_fmap in Hx as (d & Hxd & Hd). apply Hfresh in Hd. lia.
      * apply NoDup_singleton.
Qed.

(** X3.  Message identifiers stay unique: if the identifiers in the store
    are distinct and below the next one to assign, they still are after any
    sequence of events. *)
Theorem message_ids_stay_unique st evs :
  store_wf st → store_wf (run st evs).1.
Proof.
  revert st. induction evs as [|inp rest IH]; intros st Hwf; [done|].
  rewrite run_cons. cbn [fst]. by apply IH, handle_store_wf.
Qed.

Lemma find_fresh_last (l : list MessageDoc) (doc : MessageDoc) :
  (∀ d, d ∈ l → m_id d ≠ m_id doc) →
  List.find (λ d, N.eqb (m_id d) (m_id doc)) (l ++ [doc]) = Some doc.
Proof.
  intros Hfresh. induction l as [|y l IH]; cbn.
  - by rewrite N.eqb_refl.
  - destruct (N.eqb_spec (m_id y) (m_id doc)) as [Heq|_].
    + exfalso. apply (Hfresh y); [by left|done].
    + apply IH. intros d Hd. apply Hfresh. by right.
Qed.

(** X4.  On a well-formed store the message read back after the save is the
    document just sent: the members of the recipient's room are delivered
    receive-message, and the sender message-sent, with exactly the sender,
    recipient, content and type of this send. *)
Theorem receive_message_carries_sent_document st a1 sa b sb data now db :
  store_wf st →
  sockets st !! a1 = Some sa →
  sockets st !! b = Some sb → d_recipient data ∈ rooms sb → a1 ≠ b →
  Message_validate (outgoing st sa data) = true →
  save_ok db = true → read_ok db = true →
  let res := handle st (SendMessage a1 data now db) in
  let sent := PMessage (Some (populate (users st) (outgoing st sa data))) in
  receives res.2 b "receive-message" sent ∧
  receives res.2 a1 "message-sent" sent.
Proof.
  intros [Hfresh _] Ha Hb Hr Hne Hv Hsave Hread res sent.
  destruct (handle_send_saved st a1 sa data now db Ha Hv Hsave Hread)
    as (_ & tl & _ & _ & Hout).
  fold res in Hout.
  assert (Hback : read_back st (outgoing st sa data)
                  = Some (populate (users st) (outgoing st sa data))).
  { unfold read_back. rewrite find_fresh_last; [done|].
    intros d Hd Heq. apply Hfresh in Hd. cbn in Heq. lia. }
  rewrite Hback in Hout. rewrite Hout. split.
  - eapply receives_here; [by left|].
    rewrite elem_of_difference, elem_of_singleton. split; [|congruence].
    apply elem_of_room_members. eauto.
  - eapply receives_here; [right; by left|]. by apply elem_of_singleton.
Qed.

(** ** Sockets and rooms *)

(** One event other than the close of [sid] keeps socket [sid] connected,
    with the identity it had. *)
Lemma handle_identity st inp sid s :
  sockets st !! sid = Some s → disconnects sid inp = false →
  ∃ s', sockets (handle st inp).1 !! sid = Some s' ∧
        userId s' = userId s ∧ user s' = user s.
Proof.
  intros Hs Hclose.
  assert (Hsame : ∃ s', sockets st !! sid = Some s' ∧
                        userId s' = userId s ∧ user s' = user s) by eauto.
  assert (Halter : ∀ f k,
            (∀ x, userId (f x) = userId x ∧ user (f x) = user x) →
            ∃ s', alter f k (sockets st) !! sid = Some s' ∧
                  userId s' = userId s ∧ user s' = user s).
  { intros f k Hf. rewrite lookup_alter. case_decide; [subst k|done].
    rewrite Hs. cbn. eexists. split; [done|]. apply Hf. }
  destruct inp as [c hs ok|c r|c r|c data now db|c data|c now ok];
    cbn [handle]; destruct (sockets st !! c) as [socket|] eqn:Hc; try done.
  - destruct (socketAuth _ _ _) as [reason|uid u]; [done|].
    rewrite exec_on_connection. cbn [fst sockets with_sockets].
    assert (c ≠ sid) by congruence.
    rewrite lookup_alter_ne by done. by rewrite lookup_insert_ne.
  - rewrite exec_on_join_room. cbn [fst sockets with_sockets]. by apply Halter.
  - rewrite exec_on_leave_room. cbn [fst sockets with_sockets]. by apply Halter.
  - rewrite exec_on_send_message. cbn zeta.
    destruct (negb _); [done|]. destruct (negb _); [done|].
    by destruct (touch_ok db).
  - cbn [disconnects] in Hclose. apply String.eqb_neq in Hclose.
    rewrite exec_on_disconnect.
    destruct ok; cbn [fst sockets with_users with_sockets];
      by rewrite lookup_delete_ne.
Qed.

(** X5.  The identity of a connection is fixed at the handshake: as long as
    socket [sid] is not closed, no sequence of events (its own or others')
    changes its [userId] or [user], or disconnects it. *)
Theorem socket_identity_is_stable st evs sid s :
  sockets st !! sid = Some s →
  (∀ inp, inp ∈ evs → disconnects sid inp = false) →
  ∃ s', sockets (run st evs).1 !! sid = Some s' ∧
        userId s' = userId s ∧ user s' = user s.
Proof.
  revert st s. induction evs as [|inp rest IH]; intros st s Hs Hopen; [eauto|].
  rewrite run_cons. cbn [fst].
  destruct (handle_identity st inp sid s Hs) as (s1 & Hs1 & Hu1 & Hr1);
    [apply Hopen; by left|].
  destruct (IH _ s1 Hs1) as (s2 & Hs2 & Hu2 & Hr2);
    [intros i Hi; apply Hopen; by right|].
  exists s2. split; [done|]. split; congruence.
Qed.

Lemma unconnected_not_member st sid room :
  sockets st !! sid = None → sid ∉ room_members st room.
Proof.
  intros Hs (s & Hsome & _)%elem_of_room_members. congruence.
Qed.

Lemma handle_unconnected_silent st sid inp :
  sockets st !! sid = None → connects_as sid inp = false →
  ∀ e, e ∈ (handle st inp).2 → sid ∉ recipients e.
Proof.
  intros Hs Hconn.
  assert (Hdom : sid ∉ dom (sockets st)) by (by apply not_elem_of_dom).
  assert (Hself : ∀ c socket, sockets st !! c = Some socket → sid ∉ ({[c]} : gset string)).
  { intros c socket Hc ->%elem_of_singleton. congruence. }
  assert (Hroom : ∀ c room, sid ∉ room_members st room ∖ {[c]}).
  { intros c room [Hin _]%elem_of_difference.
    by apply (unconnected_not_member st sid room). }
  destruct inp as [c hs ok|c r|c r|c data now db|c data|c now ok];
    cbn [handle]; destruct (sockets st !! c) as [socket|] eqn:Hc;
    try (intros e []%elem_of_nil).
  - cbn [connects_as] in Hconn. apply String.eqb_neq in Hconn.
    destruct (socketAuth _ _ _) as [reason|uid u].
    + intros e ->%list_elem_of_singleton. cbn.
      rewrite elem_of_singleton. congruence.
    + rewrite exec_on_connection. intros e []%elem_of_nil.
  - rewrite exec_on_join_room. intros e ->%list_elem_of_singleton. by eapply Hself.
  - rewrite exec_on_leave_room. intros e ->%list_elem_of_singleton. by eapply Hself.
  - rewrite exec_on_send_message. cbn zeta. intros e He.
    destruct (negb _); [|destruct (negb _); [|destruct (touch_ok db)]];
      cbn [snd app] in He;
      repeat (apply elem_of_cons in He as [->|He]);
      try (by apply elem_of_nil in He); cbn [recipients failure];
      first [by eapply Hself | apply Hroom].
  - rewrite exec_on_typing. intros e ->%list_elem_of_singleton. apply Hroom.
  - rewrite exec_on_disconnect. destruct ok; [|intros e []%elem_of_nil].
    intros e ->%list_elem_of_singleton. cbn [recipients sockets with_sockets].
    intros [Hin _]%elem_of_difference.
    apply elem_of_dom in Hin as [x Hx]. apply lookup_delete_Some in Hx as [_ Hx].
    congruence.
Qed.

(** X6.  Nothing is ever delivered to an id that is not a connected socket:
    as long as no connection is made under [sid], no emission of any event
    has [sid] among its recipients.  In particular a socket that has been
    closed receives nothing afterwards. *)
Theorem unconnected_receives_nothing st evs sid :
  sockets st !! sid = None →
  (∀ inp, inp ∈ evs → connects_as sid inp = false) →
  ∀ e, e ∈ (run st evs).2 → sid ∉ recipients e.
Proof.
  revert st. induction evs as [|inp rest IH]; intros st Hs Hconn e He.
  - by apply elem_of_nil in He.
  - rewrite run_cons in He. cbn [snd] in He.
    apply elem_of_app in He as [He|He].
    + eapply handle_unconnected_silent; [done| |done]. apply Hconn. by left.
    + eapply (IH (handle st inp).1); [| |done].
      * apply handle_keeps_unconnected; [done|]. apply Hconn. by left.
      * intros i Hi. apply Hconn. by right.
Qed.

Lemma handle_connection_granted st sid hs ok uid u :
  sockets st !! sid = None →
  socketAuth (users st) hs ok = Granted uid u →
  handle st (Connection sid hs ok) =
  (with_sockets (insert sid (add_room uid (fresh_socket sid uid u))) st, []).
Proof.
  intros Hs Hauth. cbn [handle]. rewrite Hs, Hauth, exec_on_connection.
  cbn [userId fresh_socket]. f_equal.
  unfold with_sockets. cbn [users messages sockets next_oid]. f_equal.
  apply map_eq. intros k. rewrite lookup_alter.
  case_decide; [subst k; by rewrite !lookup_insert_eq|by rewrite !lookup_insert_ne].
Qed.

(** X7.  A granted connection creates the socket in exactly two rooms, the
    one named by its own id and its user's personal room, writes nothing
    (the user is not marked online) and emits nothing (no online
    broadcast); from then on a message that another socket sends to that
    user is delivered to it. *)
Theorem connection_then_direct_message st sid hs ok uid u :
  sockets st !! sid = None →
  socketAuth (users st) hs ok = Granted uid u →
  let res := handle st (Connection sid hs ok) in
  sockets res.1 !! sid = Some (mkSocket uid u {[uid; sid]}) ∧
  users res.1 = users st ∧ messages res.1 = messages st ∧ res.2 = [] ∧
  ∀ a1 sa data now db,
    sockets res.1 !! a1 = Some sa → a1 ≠ sid → d_recipient data = uid →
    Message_validate (outgoing res.1 sa data) = true →
    save_ok db = true → read_ok db = true →
    ∃ p, receives (handle res.1 (SendMessage a1 data now db)).2 sid
           "receive-message" p.
Proof.
  intros Hs Hauth res. subst res.
  rewrite (handle_connection_granted _ _ _ _ _ _ Hs Hauth). cbn [fst snd].
  assert (Hsock : sockets (with_sockets (insert sid (add_room uid (fresh_socket sid uid u))) st)
                    !! sid = Some (mkSocket uid u {[uid; sid]})).
  { cbn [sockets with_sockets]. by rewrite lookup_insert_eq. }
  split; [done|]. split; [done|]. split; [done|]. split; [done|].
  intros a1 sa data now db Ha Hne Hto Hv Hsave Hread.
  destruct (handle_send_saved _ a1 sa data now db Ha Hv Hsave Hread)
    as (_ & tl & _ & _ & Hout).
  rewrite Hout, Hto. eexists. eapply receives_here; [by left|].
  rewrite elem_of_difference, elem_of_singleton. split; [|congruence].
  apply elem_of_room_members. eexists. split; [exact Hsock|].
  cbn. apply elem_of_union. left. by apply elem_of_singleton.
Qed.

Lemma room_members_alter st sid s f room :
  sockets st !! sid = Some s →
  room_members (with_sockets (alter f sid) st) room =
  if decide (room ∈ rooms (f s))
  then room_members st room ∪ {[sid]}
  else room_members st room ∖ {[sid]}.
Proof.
  intros Hs. apply set_eq. intros x.
  rewrite elem_of_room_members. cbn [sockets with_sockets].
  rewrite lookup_alter. case_decide as Hx; [subst x|].
  - rewrite Hs. cbn. case_decide as Hin.
    + rewrite elem_of_union, elem_of_singleton. split; [auto|]. intros _. eauto.
    + rewrite elem_of_difference, elem_of_singleton. split; [|tauto].
      intros (s' & [= <-] & Hr). done.
  - rewrite <- elem_of_room_members. case_decide.
    + rewrite elem_of_union, elem_of_singleton. split; [auto|]. intros [|]; congruence.
    + rewrite elem_of_difference, elem_of_singleton. split; [|tauto].
      intros Hm. split; [done|congruence].
Qed.

(** X8.  join-room adds exactly the caller to exactly the room it names:
    that room gains the caller, no other room changes, no user or message
    is written, and the acknowledgement joined-room goes to the caller
    alone. *)
Theorem join_room_membership st sid s roomId :
  sockets st !! sid = Some s →
  let res := handle st (JoinRoom sid roomId) in
  room_members res.1 roomId = room_members st roomId ∪ {[sid]} ∧
  (∀ room, room ≠ roomId → room_members res.1 room = room_members st room) ∧
  users res.1 = users st ∧ messages res.1 = messages st ∧
  res.2 = [mkEmission {[sid]} "joined-room" (PRoom roomId)].
Proof.
  intros Hs res. subst res. cbn [handle]. rewrite Hs, exec_on_join_room.
  cbn [fst snd]. split; [|split; [|done]].
  - rewrite (room_members_alter st sid s _ roomId Hs).
    rewrite decide_True; [done|]. cbn. apply elem_of_union. left.
    by apply elem_of_singleton.
  - intros room Hne. rewrite (room_members_alter st sid s _ room Hs). cbn.
    apply set_eq. intros x. case_decide as Hin.
    + apply elem_of_union in Hin as [Hin%elem_of_singleton|Hin]; [done|].
      rewrite elem_of_union, elem_of_singleton. split; [|auto].
      intros [Hm| ->]; [done|]. apply elem_of_room_members. eauto.
    + rewrite elem_of_difference, elem_of_singleton. split; [tauto|].
      intros Hx. split; [done|]. intros ->.
      apply elem_of_room_members in Hx as (s' & Hs' & Hr).
      apply Hin, elem_of_union. right. congruence.
Qed.

(** X9.  leave-room takes the caller out of whatever room it names, the
    caller's own personal room included: afterwards the caller is not a
    member, and a message sent to that room is not delivered to it. *)
Theorem leave_room_stops_delivery st sid s roomId :
  sockets st !! sid = Some s →
  let st1 := (handle st (LeaveRoom sid roomId)).1 in
  room_members st1 roomId = room_members st roomId ∖ {[sid]} ∧
  ∀ a1 data now db e,
    d_recipient data = roomId →
    e ∈ (handle st1 (SendMessage a1 data now db)).2 →
    event e = "receive-message" → sid ∉ recipients e.
Proof.
  intros Hs st1.
  assert (Hout : room_members st1 roomId = room_members st roomId ∖ {[sid]}).
  { subst st1. cbn [handle]. rewrite Hs, exec_on_leave_room. cbn [fst].
    rewrite (room_members_alter st sid s _ roomId Hs).
    rewrite decide_False; [done|]. cbn.
    rewrite elem_of_difference, elem_of_singleton. tauto. }
  split; [done|].
  intros a1 data now db e Hto He Hev. cbn [handle] in He.
  destruct (sockets st1 !! a1) as [sa|]; [|by apply elem_of_nil in He].
  rewrite exec_on_send_message in He. cbn zeta in He.
  destruct (negb _); [|destruct (negb _); [|destruct (touch_ok db)]];
    cbn [snd app] in He;
    repeat (apply elem_of_cons in He as [->|He]);
    try discriminate Hev; try (by apply elem_of_nil in He);
    cbn [recipients]; rewrite Hto, Hout, !elem_of_difference, elem_of_singleton;
    tauto.
Qed.

(** X10.  Joining a room the socket was not in and then leaving it restores
    the server state exactly. *)
Theorem join_then_leave_restores st sid s roomId :
  sockets st !! sid = Some s → roomId ∉ rooms s →
  (handle (handle st (JoinRoom sid roomId)).1 (LeaveRoom sid roomId)).1 = st.
Proof.
  intros Hs Hnot. cbn [handle]. rewrite Hs, exec_on_join_room. cbn [fst].
  cbn [sockets with_sockets]. rewrite lookup_alter_eq, Hs. cbn [fmap option_fmap option_map].
  rewrite exec_on_leave_room. cbn [fst].
  destruct st as [us ms ss n]. unfold with_sockets. cbn in *. f_equal.
  apply map_eq. intros k.
  destruct (decide (k = sid)) as [->|Hne]; [|by rewrite !lookup_alter_ne].
  rewrite !lookup_alter_eq, Hs. cbn. f_equal.
  destruct s as [uid u rs]. unfold remove_room, add_room. cbn in *. f_equal.
  apply set_eq. intros x.
  rewrite elem_of_difference, elem_of_union, elem_of_singleton.
  split; [tauto|]. intros Hx. split; [auto|]. congruence.
Qed.

(** * Properties of the socket utilities *)

(** X11.  [optionalSocketAuth] never refuses a connection, and it sets an
    identity on the socket exactly when [socketAuth] would admit the same
    handshake, and then the same identity. *)
Theorem optionalSocketAuth_agrees users hs db_ok uid u :
  optionalSocketAuth users hs db_ok = Some (uid, u) ↔
  socketAuth users hs db_ok = Granted uid u.
Proof.
  unfold optionalSocketAuth, socketAuth.
  destruct (truthy (handshake_token hs)); cbn [negb]; [|done].
  destruct (jwt_verify _) as [uid'|name].
  - destruct db_ok; [|done].
    destruct (users !! uid') as [user|]; [|done].
    destruct (isActive user); cbn [negb]; [|done].
    split; intros [= <- <-]; done.
  - destruct (String.eqb name "TokenExpiredError"); [done|].
    by destruct (String.eqb name "JsonWebTokenError").
Qed.

(** X12.  When the presence write fails, or the socket carries no user id,
    the presence helpers do nothing at all: [handleOnlineStatus] joins no
    room and announces nothing, and [handleDisconnection] announces nothing
    and leaves the socket in its room. *)
Theorem presence_helpers_noop_on_failure st sid socket now now' db_ok :
  db_ok = false ∨ isAuthenticated socket = false →
  exec (handleOnlineStatus sid socket now db_ok) st = (st, []) ∧
  exec (handleDisconnection sid socket now now' db_ok) st = (st, []).
Proof.
  unfold isAuthenticated, handleOnlineStatus, handleDisconnection.
  intros Hcase.
  destruct db_ok, (truthy (Some (userId socket))); try done.
  destruct Hcase; discriminate.
Qed.

Lemma user_room_not_bare uid : "user:" +:+ uid ≠ uid.
Proof.
  intros Heq. apply (f_equal String.length) in Heq.
  change (String.length ("user:" +:+ uid)) with (5 + String.length uid)%nat in Heq.
  lia.
Qed.

(** X13.  [handleOnlineStatus] followed by [handleDisconnection] on a socket
    that was not yet in its ["user:"] room: the socket's rooms are as
    before, the user is stored offline with [lastSeen] the time of the
    disconnection, and the other sockets have been told online, then
    offline. *)
Theorem online_then_disconnection st sid socket t1 t2 t3 :
  sockets st !! sid = Some socket →
  isAuthenticated socket = true →
  "user:" +:+ userId socket ∉ rooms socket →
  let r1 := exec (handleOnlineStatus sid socket t1 true) st in
  let r2 := exec (handleDisconnection sid socket t2 t3 true) r1.1 in
  sockets r2.1 = sockets st ∧
  users r2.1 = alter (go_offline t2) (userId socket) (users st) ∧
  online r2.1 (userId socket) = false ∧
  r1.2 ++ r2.2 =
    [mkEmission (dom (sockets st) ∖ {[sid]}) "user:status"
       (PStatus (userId socket) "online" None);
     mkEmission (dom (sockets st) ∖ {[sid]}) "user:status"
       (PStatus (userId socket) "offline" (Some t3))].
Proof.
  intros Hs Hauth Hnot r1 r2. subst r2 r1.
  rewrite (exec_handleOnlineStatus _ _ _ _ Hauth). cbn [fst snd].
  rewrite (exec_handleDisconnection _ _ _ _ _ Hauth). cbn [fst snd].
  cbn [sockets users with_users with_sockets app].
  split; [|split; [|split]].
  - apply map_eq. intros k.
    destruct (decide (k = sid)) as [->|Hne]; [|by rewrite !lookup_alter_ne].
    rewrite !lookup_alter_eq, Hs. cbn. f_equal.
    destruct socket as [uid u rs]. unfold remove_room, add_room. cbn in *. f_equal.
    apply set_eq. intros x.
    rewrite elem_of_difference, elem_of_union, elem_of_singleton.
    split; [tauto|]. intros Hx. split; [auto|]. congruence.
  - apply map_eq. intros k.
    destruct (decide (k = userId socket)) as [->|Hne];
      [|by rewrite !lookup_alter_ne].
    rewrite !lookup_alter_eq. by destruct (users st !! userId socket).
  - unfold online. cbn [users with_users with_sockets].
    rewrite !lookup_alter_eq. by destruct (users st !! userId socket).
  - do 2 f_equal. f_equal. apply set_eq. intros x.
    by rewrite !elem_of_difference, dom_alter.
Qed.

Lemma exec_joinChatRoom st sid socket roomId :
  exec (joinChatRoom sid socket roomId) st =
  if isAuthenticated socket && truthy (Some roomId)
  then (with_sockets (alter (add_room ("chat:" +:+ roomId)) sid) st, [])
  else (st, []).
Proof.
  unfold joinChatRoom, isAuthenticated.
  by destruct (truthy (Some (userId socket)) && truthy (Some roomId)).
Qed.

(** X14.  [joinChatRoom] joins a room in the ["chat:"] name space, so it
    never changes who is in a ["user:"] room, whatever room id the caller
    supplies; and once joined, [emitToChatRoom] for that id reaches the
    socket. *)
Theorem joinChatRoom_keeps_user_rooms st sid socket roomId :
  sockets st !! sid = Some socket →
  let st1 := (exec (joinChatRoom sid socket roomId) st).1 in
  (∀ uid, room_members st1 ("user:" +:+ uid) = room_members st ("user:" +:+ uid)) ∧
  (isAuthenticated socket = true → roomId ≠ "" →
   ∀ ev p e, e ∈ (exec (emitToChatRoom roomId ev p) st1).2 → sid ∈ recipients e).
Proof.
  intros Hs st1. subst st1. rewrite exec_joinChatRoom. split.
  - intros uid. destruct (_ && _); [|done]. cbn [fst].
    rewrite (room_members_alter st sid socket _ _ Hs). cbn [rooms add_room].
    apply set_eq. intros x. case_decide as Hin.
    + apply elem_of_union in Hin as [Hin%elem_of_singleton|Hin]; [discriminate Hin|].
      rewrite elem_of_union, elem_of_singleton. split; [|auto].
      intros [Hm| ->]; [done|]. apply elem_of_room_members. eauto.
    + rewrite elem_of_difference, elem_of_singleton. split; [tauto|].
      intros Hx. split; [done|]. intros ->.
      apply elem_of_room_members in Hx as (s' & Hs' & Hr).
      apply Hin, elem_of_union. right. congruence.
  - intros -> Hroom ev p e He.
    assert (Htr : truthy (Some roomId) = true).
    { cbn. by apply negb_true_iff, String.eqb_neq. }
    rewrite Htr in He. cbn [andb fst] in He.
    apply list_elem_of_singleton in He as ->. cbn [recipients].
    rewrite (room_members_alter st sid socket _ _ Hs).
    rewrite decide_True.
    + apply elem_of_union. right. by apply elem_of_singleton.
    + cbn. apply elem_of_union. left. by apply elem_of_singleton.
Qed.

(** X23.  [joinChatRoom] and [leaveChatRoom] name the same room for the
    same id, and joining a chat room the socket was not in and then leaving
    it restores the state exactly; with an empty room id, or on a socket
    without a user id, both return [null] and change nothing. *)
Theorem chat_room_round_trip st sid socket roomId :
  sockets st !! sid = Some socket →
  "chat:" +:+ roomId ∉ rooms socket →
  let r1 := joinChatRoom sid socket roomId st in
  let r2 := leaveChatRoom sid socket roomId r1.1.2 in
  r2.1.2 = st ∧ r1.1.1 = r2.1.1 ∧ r1.2 = [] ∧ r2.2 = [] ∧
  (r1.1.1 = Some None ↔ isAuthenticated socket && truthy (Some roomId) = false) ∧
  (r1.1.1 = Some (Some ("chat:" +:+ roomId)) ↔
   isAuthenticated socket && truthy (Some roomId) = true).
Proof.
  intros Hs Hnot r1 r2. subst r2 r1.
  unfold joinChatRoom, leaveChatRoom, isAuthenticated.
  destruct (truthy (Some (userId socket)) && truthy (Some roomId));
    unfold_handler; cbn [fst snd app].
  2:{ repeat split; try done. }
  split; [|repeat split; try done].
  destruct st as [us ms ss n]. unfold with_sockets. cbn in *. f_equal.
  apply map_eq. intros k.
  destruct (decide (k = sid)) as [->|Hne]; [|by rewrite !lookup_alter_ne].
  rewrite !lookup_alter_eq, Hs. cbn. f_equal.
  destruct socket as [uid u rs]. unfold remove_room, add_room. cbn in *. f_equal.
  apply set_eq. intros x.
  rewrite elem_of_difference, elem_of_union, elem_of_singleton.
  split; [tauto|]. intros Hx. split; [auto|]. congruence.
Qed.

(** X15.  [emitToUser] addresses the room ["user:<id>"], while the
    connection callback of the server puts a socket in the room named by the
    bare id: a socket that has only been connected is not reached by
    [emitToUser] for its own user, and it is reached, like every other
    member and without exception for a sender, once [handleOnlineStatus]
    has run for it. *)
Theorem emitToUser_reaches_only_joined st sid hs ok uid u ev p :
  sockets st !! sid = None →
  socketAuth (users st) hs ok = Granted uid u →
  sid ≠ "user:" +:+ uid →
  let st1 := (handle st (Connection sid hs ok)).1 in
  (∀ e, e ∈ (exec (emitToUser uid ev p) st1).2 → sid ∉ recipients e) ∧
  (uid ≠ "" →
   ∀ now e socket,
     sockets st1 !! sid = Some socket →
     e ∈ (exec (emitToUser uid ev p)
            (exec (handleOnlineStatus sid socket now true) st1).1).2 →
     sid ∈ recipients e).
Proof.
  intros Hs Hauth Hsid st1. subst st1.
  rewrite (handle_connection_granted _ _ _ _ _ _ Hs Hauth). cbn [fst].
  set (st1 := with_sockets _ st).
  assert (Hsock : sockets st1 !! sid = Some (add_room uid (fresh_socket sid uid u))).
  { subst st1. cbn [sockets with_sockets]. by rewrite lookup_insert_eq. }
  split.
  - intros e ->%list_elem_of_singleton. cbn [recipients].
    intros (s & Hsome & Hin)%elem_of_room_members.
    rewrite Hsock in Hsome. injection Hsome as <-. cbn in Hin.
    apply elem_of_union in Hin as [Hin%elem_of_singleton|Hin%elem_of_singleton].
    + by apply user_room_not_bare in Hin.
    + congruence.
  - intros Huid now e socket Hsome. rewrite Hsock in Hsome. injection Hsome as <-.
    assert (Hauth' : truthy (Some (userId (add_room uid (fresh_socket sid uid u)))) = true).
    { cbn. by apply negb_true_iff, String.eqb_neq. }
    rewrite (exec_handleOnlineStatus _ _ _ _ Hauth'). cbn [fst].
    intros ->%list_elem_of_singleton. cbn [recipients userId add_room fresh_socket].
    apply elem_of_room_members. cbn [sockets with_users with_sockets].
    rewrite lookup_alter_eq, Hsock. cbn. eexists. split; [done|].
    cbn. apply elem_of_union. left. by apply elem_of_singleton.
Qed.

(** * The rate limiters *)

Local Open Scope Z_scope.

Lemma limiter_step (maxEvents windowMs : Z) (m : gmap string (list Z)) (s : string) (t : Z) :
  let pruned := filter (λ x, t - windowMs < x) (default [] (m !! s)) in
  let full := maxEvents <=? Z.of_nat (length pruned) in
  ∃ m',
    createSocketRateLimit maxEvents windowMs m s t = (negb full, m') ∧
    default [] (m' !! s) = (if full then pruned else pruned ++ [t]) ∧
    ∀ s', s' ≠ s → m' !! s' = m !! s'.
Proof.
  intros pruned full. subst pruned full. unfold createSocketRateLimit.
  destruct (m !! s) as [recorded|] eqn:Hm; cbn [default].
  - rewrite lookup_insert_eq. cbn [default].
    destruct (maxEvents <=? _); eexists; (split; [reflexivity|]); split.
    + by rewrite lookup_insert_eq.
    + intros s' Hne. by rewrite lookup_insert_ne.
    + by rewrite lookup_insert_eq.
    + intros s' Hne. by rewrite !lookup_insert_ne.
  - rewrite Hm. cbn [default]. rewrite filter_nil. cbn [length].
    destruct (maxEvents <=? _); eexists; (split; [reflexivity|]); split.
    + by rewrite Hm.
    + done.
    + by rewrite lookup_insert_eq.
    + intros s' Hne. by rewrite lookup_insert_ne.
Qed.

Lemma filter_window_mono (t t' w : Z) (l : list Z) :
  t ≤ t' →
  filter (λ x, t' - w < x) (filter (λ x, t - w < x) l) = filter (λ x, t' - w < x) l.
Proof.
  intros Ht. induction l as [|x l IH]; [done|].
  rewrite (filter_cons (λ x, t - w < x)). case_decide.
  - rewrite !filter_cons. case_decide; by rewrite IH.
  - rewrite IH. rewrite filter_cons. case_decide; [lia|done].
Qed.

Lemma limiter_run_cons (maxEvents windowMs : Z) (m : gmap string (list Z)) s t rest :
  limiter_run maxEvents windowMs m ((s, t) :: rest) =
  let step := createSocketRateLimit maxEvents windowMs m s t in
  let tail := limiter_run maxEvents windowMs step.2 rest in
  ((s, t, step.1) :: tail.1, tail.2).
Proof.
  cbn [limiter_run]. destruct (createSocketRateLimit _ _ _ _ _) as [ok m1].
  cbn [fst snd]. by destruct (limiter_run _ _ _ _).
Qed.

Lemma accepted_cons s c log : accepted s (c :: log) = accepted s [c] ++ accepted s log.
Proof.
  unfold accepted. cbn [omap list_omap].
  destruct (decide (c.1.1 = s)); [destruct c.2|]; done.
Qed.

(** The stored times agree with the times let through, seen through any
    window that ends at or after the calls made so far; and no more than
    [maxEvents] times are ever stored for a socket. *)
Lemma limiter_run_invariant (maxEvents windowMs : Z) (calls : list (string * Z)) :
  ∀ (m : gmap string (list Z)) (acc : string → list Z) (T0 : Z),
    (∀ s t, T0 ≤ t →
       filter (λ x, t - windowMs < x) (default [] (m !! s)) =
       filter (λ x, t - windowMs < x) (acc s)) →
    (∀ s, Z.of_nat (length (default [] (m !! s))) ≤ Z.max 0 maxEvents) →
    (∀ c, c ∈ calls → T0 ≤ c.2) →
    in_time_order calls →
    let res := limiter_run maxEvents windowMs m calls in
    (∀ s t, T0 ≤ t → (∀ c, c ∈ calls → c.2 ≤ t) →
       filter (λ x, t - windowMs < x) (default [] (res.2 !! s)) =
       filter (λ x, t - windowMs < x) (acc s ++ accepted s res.1)) ∧
    (∀ s, Z.of_nat (length (default [] (res.2 !! s))) ≤ Z.max 0 maxEvents).
Proof.
  induction calls as [|[s0 t0] rest IH]; intros m acc T0 Hwin Hlen Hlb Hord.
  - cbn. split; [|done]. intros s t Ht _. rewrite app_nil_r. by apply Hwin.
  - destruct Hord as [Hfirst Hord].
    assert (HT0 : T0 ≤ t0) by (apply (Hlb (s0, t0)); by left).
    rewrite limiter_run_cons. cbn zeta.
    destruct (limiter_step maxEvents windowMs m s0 t0) as (m1 & Hstep & Hs0 & Hframe).
    cbn zeta in Hstep, Hs0. rewrite Hstep. cbn [fst snd].
    set (pruned := filter (λ x, t0 - windowMs < x) (default [] (m !! s0))) in *.
    set (full := maxEvents <=? Z.of_nat (length pruned)) in *.
    set (acc1 := λ s, acc s ++ accepted s [(s0, t0, negb full)]).
    destruct (IH m1 acc1 t0) as [Hwin' Hlen']; [| | |done|].
    + intros s t Ht. subst acc1. cbn beta.
      unfold accepted. cbn [omap list_omap fst snd].
      destruct (decide (s0 = s)) as [<-|Hne].
      * rewrite Hs0. destruct full; cbn [negb].
        -- rewrite app_nil_r. subst pruned.
           rewrite filter_window_mono by done. apply Hwin. lia.
        -- rewrite !filter_app. f_equal. subst pruned.
           rewrite filter_window_mono by done. apply Hwin. lia.
      * rewrite app_nil_r. rewrite Hframe by congruence. apply Hwin. lia.
    + intros s. destruct (decide (s0 = s)) as [<-|Hne].
      * rewrite Hs0. destruct full eqn:Hfull.
        -- subst pruned. pose proof (length_filter (λ x, t0 - windowMs < x)
                                       (default [] (m !! s0))).
           specialize (Hlen s0). lia.
        -- subst full. apply Z.leb_gt in Hfull. rewrite length_app. cbn. lia.
      * rewrite Hframe by congruence. apply Hlen.
    + intros c Hc. by apply Hfirst.
    + split; [|done]. intros s t Ht Hall.
      rewrite Hwin'.
      * subst acc1. cbn beta. by rewrite <- app_assoc, <- accepted_cons.
      * apply (Hall (s0, t0)). by left.
      * intros c Hc. apply Hall. by right.
Qed.

(** X16.  What the socket rate limiter guarantees: when the calls arrive in
    the order of their times, then at any time [t] not before the last
    call, the number of events of a socket that were let through within
    the window of [windowMs] ending at [t] is at most [maxEvents] (none when
    [maxEvents] is not positive). *)
Theorem rate_limit_guarantee (maxEvents windowMs : Z) (calls : list (string * Z))
    (t : Z) (s : string) :
  in_time_order calls →
  (∀ c, c ∈ calls → c.2 ≤ t) →
  Z.of_nat (length (filter (λ x, t - windowMs < x)
                      (accepted s (limiter_run maxEvents windowMs ∅ calls).1)))
  ≤ Z.max 0 maxEvents.
Proof.
  intros Hord Hall.
  destruct calls as [|[s0 t0] rest] eqn:Hcalls; [cbn; lia|]. rewrite <- Hcalls in *.
  destruct (limiter_run_invariant maxEvents windowMs calls ∅ (λ _, []) t0)
    as [Hwin Hlen].
  - intros s' t' _. by rewrite lookup_empty.
  - intros s'. rewrite lookup_empty. cbn. lia.
  - intros c Hc. rewrite Hcalls in Hc, Hord. destruct Hord as [Hfirst _].
    apply elem_of_cons in Hc as [->|Hc]; [done|]. by apply Hfirst.
  - done.
  - cbn zeta in Hwin, Hlen. specialize (Hwin s t). cbn [app] in Hwin.
    rewrite <- Hwin.
    + pose proof (length_filter (λ x, t - windowMs < x)
                    (default [] ((limiter_run maxEvents windowMs ∅ calls).2 !! s))).
      specialize (Hlen s). lia.
    + apply (Hall (s0, t0)). rewrite Hcalls. by left.
    + done.
Qed.

Lemma filter_old_nil (b : Z) (l : list Z) :
  (∀ x, x ∈ l → x ≤ b) → filter (λ x, b < x) l = [].
Proof.
  induction l as [|x l IH]; intros Hold; [done|].
  rewrite filter_cons. case_decide as Hx.
  - assert (x ≤ b) by (apply Hold; by left). lia.
  - apply IH. intros y Hy. apply Hold. by right.
Qed.

(** X17.  One call of the limiter concerns one socket only: what is
    recorded for every other socket is untouched.  A call that is refused
    records nothing (it only drops the socket's expired times); and a socket all of whose recorded events are older
    than the window is let through again (when [maxEvents] is positive),
    a socket never seen before included. *)
Theorem rate_limit_step (maxEvents windowMs : Z) (m : gmap string (list Z))
    (s : string) (t : Z) :
  let res := createSocketRateLimit maxEvents windowMs m s t in
  (∀ s', s' ≠ s → res.2 !! s' = m !! s') ∧
  (res.1 = false →
   default [] (res.2 !! s) = filter (λ x, t - windowMs < x) (default [] (m !! s))) ∧
  (0 < maxEvents → (∀ x, x ∈ default [] (m !! s) → x ≤ t - windowMs) →
   res.1 = true ∧ res.2 !! s = Some [t]).
Proof.
  intros res. subst res.
  destruct (limiter_step maxEvents windowMs m s t) as (m1 & Hstep & Hs & Hframe).
  cbn zeta in Hstep, Hs. rewrite Hstep. cbn [fst snd]. split; [done|]. split.
  - intros Hfull%negb_false_iff. by rewrite Hs, Hfull.
  - intros Hpos Hold.
    assert (Hnil : filter (λ x, t - windowMs < x) (default [] (m !! s)) = [])
      by (by apply filter_old_nil).
    assert (Hopen : (maxEvents <=? Z.of_nat (length (@nil Z))) = false)
      by (apply Z.leb_gt; cbn; lia).
    rewrite Hnil, Hopen in Hs. rewrite Hnil, Hopen. split; [done|].
    destruct (m1 !! s) as [l|]; cbn in Hs; [by subst l|discriminate Hs].
Qed.

(** X18.  The HTTP limiter takes the same decisions and keeps the same
    records as the socket limiter; when it refuses it answers 429 with the
    configured message, and for a window from 0 to 2^53 milliseconds the
    [retryAfter] it gives is the window in seconds, rounded up. *)
Theorem createRateLimit_answer (windowMs max : Z) (message : string)
    (requests : gmap string (list Z)) (ip : string) (now : Z) :
  let res := createRateLimit windowMs max message requests ip now in
  let ref := createSocketRateLimit max windowMs requests ip now in
  res.2 = ref.2 ∧
  (res.1 = RatePass ↔ ref.1 = true) ∧
  ∀ status text retryAfter,
    res.1 = TooManyRequests status text retryAfter →
    status = 429%nat ∧ text = message ∧
    (0 ≤ windowMs ≤ 2 ^ 53 →
     ∃ seconds, retryAfter = Some seconds ∧
                windowMs ≤ 1000 * seconds < windowMs + 1000).
Proof.
  unfold createRateLimit, createSocketRateLimit. cbn zeta.
  destruct (max <=? _); cbn [fst snd].
  - split; [done|]. split; [done|].
    intros status text retryAfter [= <- <- <-]. split; [done|]. split; [done|].
    intros [Hlow Hhigh]. unfold retry_after.
    apply Z.leb_le in Hlow, Hhigh. rewrite Hlow, Hhigh. cbn [andb].
    eexists. split; [done|].
    pose proof (Z.div_mod (- windowMs) 1000 ltac:(lia)).
    pose proof (Z.mod_pos_bound (- windowMs) 1000 ltac:(lia)). lia.
  - split; [done|]. split; [done|]. intros status text retryAfter [=].
Qed.

(** * The REST controllers and the HTTP middleware *)

Local Open Scope nat_scope.

(** X19.  The REST [sendMessage] answers 201, 404 or 500: 404 when the
    look-up succeeds and finds no recipient, and 201 exactly when the
    recipient exists, the document is valid, every store call succeeds and
    the sender is a stored user too (with no user under the sender's id the
    populated sender is null and building the response fails).  The message
    is stored as soon as the save succeeds, also when the answer is 500.
    Unlike the socket path the controller emits nothing to any socket and
    writes no user record. *)
Theorem sendMessage_outcome st senderId body now db :
  let doc := mkMessage (next_oid st) senderId (b_recipientId body) (b_content body)
               (or_default (b_messageType body) "text") (Some now) in
  let found := find_ok db && bool_decide (is_Some (users st !! b_recipientId body)) in
  let saved := found && Message_validate doc && store_ok db in
  let answered :=
    saved && populate_ok db && bool_decide (is_Some (users st !! senderId)) in
  ∃ resp st',
    sendMessage senderId body now db st = (Some resp, st', []) ∧
    users st' = users st ∧ sockets st' = sockets st ∧
    messages st' = (if saved then messages st ++ [doc] else messages st) ∧
    res_status resp =
      (if answered then 201
       else if find_ok db && negb found then 404 else 500).
Proof.
  intros doc found saved answered. subst answered saved found doc.
  unfold sendMessage, try_catch, User_findById, new_Message, Message_save,
    Message_populate, populate, populate_user,
    mbind, mret, Handler_bind, Handler_ret, bind, ret, get_state, modify, throw.
  destruct (find_ok db); cbn [andb negb];
    [|eexists _, _; (split; [reflexivity|]); by cbn].
  destruct (users st !! b_recipientId body) as [u|] eqn:Hu.
  - rewrite bool_decide_true by eauto. cbn [andb negb next_oid with_next_oid].
    destruct (Message_validate _); cbn [andb];
      [|eexists _, _; (split; [reflexivity|]); by cbn].
    destruct (store_ok db); cbn [andb];
      [|eexists _, _; (split; [reflexivity|]); by cbn].
    destruct (populate_ok db); cbn [andb];
      [|eexists _, _; (split; [reflexivity|]); by cbn].
    cbn [users with_messages with_next_oid pm_sender pm_recipient sender recipient].
    rewrite Hu. cbn [fmap option_fmap option_map].
    destruct (users st !! senderId) as [me|] eqn:Hme.
    + rewrite bool_decide_true by eauto.
      eexists _, _; (split; [reflexivity|]); by cbn.
    + rewrite bool_decide_false by (by intros [? [=]]).
      eexists _, _; (split; [reflexivity|]); by cbn.
  - rewrite bool_decide_false by (by intros [? [=]]). cbn [andb negb].
    eexists _, _; (split; [reflexivity|]); by cbn.
Qed.

Lemma find_Some_elem id (l : list MessageDoc) m :
  List.find (λ d, N.eqb (m_id d) id) l = Some m → m ∈ l ∧ m_id m = id.
Proof.
  intros [Hin Hid]%find_some. split; [by apply list_elem_of_In|by apply N.eqb_eq].
Qed.

Lemma elem_of_remove_first id (l : list MessageDoc) d :
  NoDup (m_id <$> l) → is_Some (List.find (λ d, N.eqb (m_id d) id) l) →
  d ∈ remove_first id l ↔ d ∈ l ∧ m_id d ≠ id.
Proof.
  induction l as [|x l IH]; intros Hnd [m Hm]; [discriminate Hm|].
  cbn in Hm, Hnd |- *. apply NoDup_cons in Hnd as [Hx Hnd].
  destruct (N.eqb_spec (m_id x) id) as [Hid|Hid].
  - split.
    + intros Hd. split; [by right|]. intros Heq.
      apply Hx, list_elem_of_fmap. exists d. split; [congruence|done].
    + intros [[->|Hd]%elem_of_cons Hne]; done.
  - rewrite elem_of_cons, IH by eauto.
    split.
    + intros [->|[Hd Hne]]; (split; [|done]); [by left|by right].
    + intros [[->|Hd]%elem_of_cons Hne]; [by left|by right].
Qed.

(** X20.  Only the sender of a message can delete it.  [deleteMessage]
    answers 200 only if a message with that id is stored whose sender is the
    caller, and then, identifiers being unique, exactly that message is
    gone; with any other answer (404 for no such message, 403 for a message
    of somebody else, 500) the store is untouched. *)
Theorem deleteMessage_only_sender st messageId me db :
  ∃ resp st',
    deleteMessage messageId me db st = (Some resp, st', []) ∧
    users st' = users st ∧ sockets st' = sockets st ∧
    (res_status resp ≠ 200 → st' = st) ∧
    (res_status resp = 200 →
     (∃ m, m ∈ messages st ∧ m_id m = messageId ∧ sender m = me) ∧
     (NoDup (m_id <$> messages st) →
      ∀ d, d ∈ messages st' ↔ d ∈ messages st ∧ m_id d ≠ messageId)) ∧
    (lookup_ok db = true →
     ∀ m, List.find (λ d, N.eqb (m_id d) messageId) (messages st) = Some m →
          sender m ≠ me → res_status resp = 403).
Proof.
  unfold deleteMessage, try_catch, Message_findById, Message_findByIdAndDelete,
    mbind, mret, Handler_bind, Handler_ret, bind, ret, get_state, modify, throw.
  destruct (lookup_ok db); cbn.
  2:{ eexists _, _. split; [done|]. repeat split; try done. }
  destruct (List.find _ (messages st)) as [m|] eqn:Hfind; cbn.
  2:{ eexists _, _. split; [done|]. repeat split; try done. }
  destruct (String.eqb_spec (sender m) me) as [Hme|Hme]; cbn.
  - destruct (remove_ok db); cbn.
    + eexists _, _. split; [done|]. cbn. split; [done|]. split; [done|].
      split; [done|]. split.
      * intros _. pose proof (find_Some_elem _ _ _ Hfind) as [Hin Hid].
        split; [eauto|].
        intros Hnd d. apply elem_of_remove_first; [done|]. by rewrite Hfind.
      * intros _ m' [= <-] Hne. done.
    + eexists _, _. split; [done|]. cbn. repeat split; try done.
      intros _ m' [= <-] Hne. done.
  - eexists _, _. split; [done|]. cbn. repeat split; try done.
Qed.

Lemma replace_bearer_prefix header :
  String.prefix "Bearer " header = true →
  replace_first "Bearer " "" header =
  String.substring 7 (String.length header - 7) header.
Proof.
  intros Hp. unfold replace_first.
  assert (Hidx : String.index 0 "Bearer " header = Some 0).
  { destruct header as [|c rest]; [discriminate Hp|].
    change (String.index 0 "Bearer " (String c rest))
      with (if String.prefix "Bearer " (String c rest) then Some 0
            else match String.index 0 "Bearer " rest with
                 | Some n => Some (S n)
                 | None => None
                 end).
    by rewrite Hp. }
  rewrite Hidx. by destruct header.
Qed.

(** X21.  Whoever passes the HTTP middleware with an Authorization header
    is admitted by the socket middleware when the same header is all the
    handshake carries, and as the same user. *)
Theorem authMiddleware_implies_socketAuth users authHeader db_ok u :
  authMiddleware users authHeader db_ok = Next u →
  ∃ uid, socketAuth users (mkHandshake None None authHeader) db_ok = Granted uid u.
Proof.
  unfold authMiddleware. intros Hpass.
  destruct authHeader as [header|]; [|cbn in Hpass; discriminate Hpass].
  destruct (truthy (Some header)); cbn [negb from_option id] in Hpass;
    [|discriminate Hpass].
  destruct (String.prefix "Bearer " header) eqn:Hp; cbn [negb] in Hpass;
    [|discriminate Hpass].
  set (token := String.substring 7 (String.length header - 7) header) in *.
  destruct (truthy (Some token)) eqn:Htok; cbn [negb] in Hpass; [|discriminate Hpass].
  assert (Htoken : handshake_token (mkHandshake None None (Some header)) = Some token).
  { unfold handshake_token, js_or.
    cbn [auth_token query_token authorization fmap option_fmap option_map].
    change (truthy None) with false. cbn iota.
    by rewrite (replace_bearer_prefix header Hp). }
  unfold socketAuth. rewrite Htoken, Htok. cbn [negb from_option id].
  destruct (jwt_verify token) as [uid|name].
  - destruct db_ok.
    + destruct (users !! uid) as [user|]; [|discriminate Hpass].
      destruct (isActive user); cbn [negb] in *; [|discriminate Hpass].
      injection Hpass as <-. by exists uid.
    + discriminate Hpass.
  - destruct (String.eqb name "TokenExpiredError"); [discriminate Hpass|].
    destruct (String.eqb name "JsonWebTokenError"); discriminate Hpass.
Qed.

(** X22.  Provided the verifier rejects the empty token, [optionalAuth] sets
    [req.user] exactly when [authMiddleware] would let the request through,
    and to the same user; it never answers the request itself. *)
Theorem optionalAuth_agrees users authHeader db_ok u :
  (∃ name, jwt_verify "" = VerifyError name) →
  optionalAuth users authHeader db_ok = Some u ↔
  authMiddleware users authHeader db_ok = Next u.
Proof.
  intros [name0 Hempty]. unfold optionalAuth, authMiddleware.
  destruct (truthy authHeader); cbn [negb andb]; [|done].
  destruct (String.prefix "Bearer " (default "" authHeader)); cbn [negb]; [|done].
  set (token := String.substring 7 _ _).
  destruct (truthy (Some token)) eqn:Htok; cbn [negb].
  - destruct (jwt_verify token) as [uid|name].
    + destruct db_ok; [|done].
      destruct (users !! uid) as [user|]; [|done].
      destruct (isActive user); cbn [negb]; [|done].
      split; intros [= <-]; done.
    + destruct (String.eqb name "TokenExpiredError"); [done|].
      by destruct (String.eqb name "JsonWebTokenError").
  - cbn in Htok. apply negb_false_iff, String.eqb_eq in Htok.
    rewrite Htok, Hempty. done.
Qed.

End Properties.

(** * The properties on the sample deployment *)

Example demo_live_sockets :
  sockets demo_live !! "a1" = Some (connected_socket "a1" "ua" alice) ∧
  sockets demo_live !! "b1" = Some (connected_socket "b1" "ub" bob) ∧
  sockets demo_live !! "b2" = Some (connected_socket "b2" "ub" bob).
Proof. vm_compute. done. Qed.

Example demo_present_state :
  online demo_present "ub" = true ∧ connection_count demo_present "ub" = 2 ∧
  sockets demo_present !! "b1" = Some (present_socket "b1").
Proof. vm_compute. done. Qed.

(** ** Presence *)

(** Connecting alone does not turn the flag on: with two connections open
    Bob is still stored as offline.  And once the flag is on (here through
    [handleOnlineStatus]), closing b1 leaves Bob one connection and the flag
    off. *)
Lemma close_one_of_two_goes_offline :
  ¬ presence_consistent demo_live "ub" ∧
  presence_consistent demo_present "ub" ∧
  connection_count (handle (H := demo) demo_present (Disconnect "b1" 20 true)).1 "ub" = 1 ∧
  online (handle (H := demo) demo_present (Disconnect "b1" 20 true)).1 "ub" = false ∧
  ¬ presence_consistent
      (handle (H := demo) demo_present (Disconnect "b1" 20 true)).1 "ub".
Proof.
  assert (Hc : connection_count
                 (handle (H := demo) demo_present (Disconnect "b1" 20 true)).1 "ub" = 1)
    by (vm_compute; reflexivity).
  assert (Ho : online
                 (handle (H := demo) demo_present (Disconnect "b1" 20 true)).1 "ub" = false)
    by (vm_compute; reflexivity).
  split; [|split; [|split; [exact Hc|split; [exact Ho|]]]].
  - intros [_ Hiff].
    assert (Hlive : online demo_live "ub" = false ∧ connection_count demo_live "ub" = 2)
      by (vm_compute; done).
    destruct Hlive as [Hoff Htwo]. rewrite Hoff, Htwo in Hiff.
    assert (false = true) by (apply Hiff; lia). discriminate.
  - destruct demo_present_state as (Hon & Hcount & _).
    unfold presence_consistent. rewrite Hon, Hcount. split; [lia|]. split; [lia|done].
  - intros [_ Hiff]. rewrite Hc, Ho in Hiff.
    assert (false = true) by (apply Hiff; lia). discriminate.
Qed.

Lemma disconnect_clears_online_witness :
  online (handle (H := demo) demo_present (Disconnect "b1" 20 true)).1 "ub" = false ∧
  connection_count (handle (H := demo) demo_present (Disconnect "b1" 20 true)).1 "ub"
  = connection_count demo_present "ub" - 1.
Proof.
  destruct (disconnect_clears_online (H := demo) demo_present [] "ub")
    as (_ & _ & Hclose).
  apply (Hclose "b1" (present_socket "b1") 20); vm_compute; reflexivity.
Defined.

(** ** The offline broadcast *)

(** Closing b1 broadcasts user-offline while Bob still has b2, and closing
    both of Bob's connections broadcasts twice, not once. *)
Lemma offline_broadcast_twice :
  connection_count demo_live "ub" = 2 ∧
  (handle (H := demo) demo_live (Disconnect "b1" 20 true)).2 =
    [mkEmission {["a1"; "b2"]} "user-offline" (PUserId "ub")] ∧
  ¬ offline_only_on_last_close (H := demo) demo_live "b1" 20 ∧
  length (emissions_of "user-offline"
            (run (H := demo) demo_live
               [Disconnect "b1" 20 true; Disconnect "b2" 21 true]).2) ≠ 1%nat.
Proof.
  assert (Hcount : connection_count demo_live "ub" = 2) by (vm_compute; reflexivity).
  assert (Hout : (handle (H := demo) demo_live (Disconnect "b1" 20 true)).2 =
                 [mkEmission {["a1"; "b2"]} "user-offline" (PUserId "ub")])
    by (vm_compute; reflexivity).
  split; [exact Hcount|]. split; [exact Hout|]. split.
  - intros Hlast.
    specialize (Hlast (connected_socket "b1" "ub" bob)).
    rewrite Hout in Hlast. cbn [userId connected_socket add_room fresh_socket] in Hlast.
    rewrite Hcount in Hlast.
    assert (2 = 1) by (apply Hlast; [vm_compute; reflexivity|discriminate]).
    lia.
  - vm_compute. discriminate.
Qed.

Lemma offline_broadcast_per_disconnect_witness :
  length (emissions_of "user-offline"
            (run (H := demo) demo_live
               (map (λ sid, Disconnect sid 20 true) ["b1"; "b2"])).2) = 2%nat.
Proof.
  apply (offline_broadcast_per_disconnect (H := demo) demo_live ["b1"; "b2"] 20).
  - repeat constructor; vm_compute; intros Hin; inversion Hin as [|? ? ? Hin'];
      inversion Hin'.
  - intros sid Hin. apply elem_of_cons in Hin as [->|Hin];
      [|apply list_elem_of_singleton in Hin as ->];
      eexists; vm_compute; reflexivity.
Defined.

(** ** Sending *)

Lemma send_to_absent_recipient_persists_witness :
  let res := handle (H := demo) demo_live
               (SendMessage "a1" (mkSendData nobody "hi" None) 10 all_ok) in
  messages res.1 =
    messages demo_live ++
      [outgoing demo_live (connected_socket "a1" "ua" alice)
         (mkSendData nobody "hi" None)] ∧
  (∃ p, receives res.2 "a1" "message-sent" p) ∧
  emissions_of "message-error" res.2 = [].
Proof.
  apply (send_to_absent_recipient_persists (H := demo) demo_live "a1"
           (connected_socket "a1" "ua" alice) (mkSendData nobody "hi" None) 10);
    vm_compute; reflexivity.
Defined.

(** The save succeeds and the read-back fails: the message is in the store
    and the sender has no confirmation. *)
Lemma stored_but_not_confirmed :
  let doc := outgoing demo_live (connected_socket "a1" "ua" alice) hi_bob in
  let res := handle (H := demo) demo_live
               (SendMessage "a1" hi_bob 10 (mkSendOutcome true false true)) in
  persisted res.1 doc ∧ ¬ confirmed res.2 "a1" ∧
  ¬ (confirmed res.2 "a1" ↔ persisted res.1 doc).
Proof.
  intros doc res.
  assert (Hm : messages res.1 = [doc]) by (vm_compute; reflexivity).
  assert (Hout : res.2 = [failure "a1"]) by (vm_compute; reflexivity).
  assert (Hp : persisted res.1 doc).
  { unfold persisted. rewrite Hm. by left. }
  assert (Hc : ¬ confirmed res.2 "a1").
  { intros (p & e & Hin & Hev & _). rewrite Hout in Hin.
    apply list_elem_of_singleton in Hin as ->. discriminate Hev. }
  split; [done|]. split; [done|]. intros Hiff. apply Hc, Hiff, Hp.
Qed.

Lemma confirmation_iff_saved_and_read_witness :
  let res := handle (H := demo) demo_live
               (SendMessage "a1" hi_bob 10 (mkSendOutcome true false true)) in
  ¬ (∃ p, receives res.2 "a1" "message-sent" p) ∧
  messages res.1 =
    messages demo_live ++ [outgoing demo_live (connected_socket "a1" "ua" alice) hi_bob] ∧
  res.2 = [failure "a1"] ∧
  emissions_of "receive-message" res.2 = [].
Proof.
  destruct (confirmation_iff_saved_and_read (H := demo) demo_live "a1"
              (connected_socket "a1" "ua" alice) hi_bob 10
              (mkSendOutcome true false true))
    as (Hiff & _ & Hstored & _ & Hunread & Hmulticast); [vm_compute; reflexivity|].
  split; [|split; [|split]].
  - intros Hsent. apply Hiff in Hsent. vm_compute in Hsent. discriminate Hsent.
  - apply Hstored. vm_compute. reflexivity.
  - apply Hunread. vm_compute. reflexivity.
  - apply Hmulticast. vm_compute. reflexivity.
Defined.

Lemma direct_message_fans_out_witness :
  let st := demo_live in
  let sa := connected_socket "a1" "ua" alice in
  let res := handle (H := demo) st (SendMessage "a1" hi_bob 10 all_ok) in
  ∃ pm,
    pm_id pm = m_id (outgoing st sa hi_bob) ∧
    outgoing st sa hi_bob ∈ messages res.1 ∧
    receives res.2 "b1" "receive-message" (PMessage (Some pm)) ∧
    receives res.2 "b2" "receive-message" (PMessage (Some pm)) ∧
    receives res.2 "a1" "message-sent" (PMessage (Some pm)) ∧
    ¬ ∃ p, receives res.2 "a1" "receive-message" p.
Proof.
  apply (direct_message_fans_out (H := demo) demo_live
           "a1" (connected_socket "a1" "ua" alice)
           "b1" (connected_socket "b1" "ub" bob)
           "b2" (connected_socket "b2" "ub" bob) hi_bob 10 all_ok);
    try (vm_compute; reflexivity); discriminate.
Defined.

(** Bob has no connection, Dave's socket d1 has joined the room named by
    Bob's id: Alice's message to Bob is delivered to d1. *)
Lemma stranger_in_room_receives :
  let res := handle (H := demo) demo_stranger (SendMessage "a1" hi_bob 10 all_ok) in
  connection_count demo_stranger "ub" = 0 ∧
  (∃ p, receives res.2 "d1" "receive-message" p) ∧
  ¬ nobody_receives res.2 "receive-message".
Proof.
  intros res.
  assert (Hzero : connection_count demo_stranger "ub" = 0) by (vm_compute; reflexivity).
  destruct (handle_send_saved (H := demo) demo_stranger "a1"
              (connected_socket "a1" "ua" alice) hi_bob 10 all_ok)
    as (_ & tl & _ & _ & Hout); try (vm_compute; reflexivity).
  fold res in Hout.
  assert (Hd1 : "d1" ∈ room_members demo_stranger (d_recipient hi_bob) ∖ {["a1"]})
    by (vm_compute; reflexivity).
  split; [exact Hzero|]. split.
  - rewrite Hout. eexists. eapply receives_here; [by left|exact Hd1].
  - intros Hnobody.
    assert (Hempty : room_members demo_stranger (d_recipient hi_bob) ∖ {["a1"]} = ∅).
    { eapply (Hnobody (mkEmission _ "receive-message" _)); [|done].
      rewrite Hout. by left. }
    rewrite Hempty in Hd1. by apply not_elem_of_empty in Hd1.
Qed.

Lemma send_to_empty_room_witness :
  let res := handle (H := demo) demo_alone (SendMessage "a1" hi_bob 10 all_ok) in
  nobody_receives res.2 "receive-message" ∧
  messages res.1 =
    messages demo_alone ++
      [outgoing demo_alone (connected_socket "a1" "ua" alice) hi_bob] ∧
  (∃ p, receives res.2 "a1" "message-sent" p) ∧
  emissions_of "message-error" res.2 = [].
Proof.
  destruct (send_to_empty_room (H := demo) demo_alone "a1"
              (connected_socket "a1" "ua" alice) hi_bob 10 all_ok)
    as (_ & Hnobody & Hsent); try (vm_compute; reflexivity).
  split; [apply Hnobody; vm_compute; reflexivity|].
  destruct Hsent as (Hstored & Hconfirmed & _ & Hquiet);
    try (vm_compute; reflexivity).
  split; [exact Hstored|]. split; [exact Hconfirmed|exact Hquiet].
Defined.

(** ** Typing *)

Lemma typing_is_ephemeral_witness :
  (handle (H := demo) demo_alone (Typing "a1" (mkTypingData "ub" true))).1
  = demo_alone ∧
  ∀ e, e ∈ (handle (H := demo) demo_alone
              (Typing "a1" (mkTypingData "ub" true))).2 →
       recipients e = ∅.
Proof.
  destruct (typing_is_ephemeral (H := demo) demo_alone "a1"
              (mkTypingData "ub" true)) as (Hsame & _ & Hdropped).
  split; [exact Hsame|]. apply Hdropped. vm_compute. reflexivity.
Defined.

(** ** The handshake *)

Lemma failed_handshake_is_refused_witness :
  ∃ reason,
    reason ∈ denial_reasons ∧
    handle (H := demo) demo_init (Connection "c1" (bearer "uc") true) =
      (demo_init, [mkEmission {["c1"]} "connect_error" (PError reason)]) ∧
    ∀ evs,
      (∀ inp, inp ∈ evs → connects_as "c1" inp = false) →
      sockets (run (H := demo) demo_init evs).1 !! "c1" = None ∧
      run (H := demo) demo_init evs =
      run (H := demo) demo_init
        (filter (λ inp, from_socket "c1" inp = false) evs).
Proof.
  apply (failed_handshake_is_refused (H := demo) demo_init "c1" (bearer "uc") true).
  - vm_compute. reflexivity.
  - right. right. exists "uc". split; [vm_compute; reflexivity|].
    right. exists carol. split; vm_compute; reflexivity.
Defined.

Example handshake_token_demo :
  handshake_token (bearer "ua") = Some "jwt:ua" ∧
  handshake_token (mkHandshake (Some "") (Some "q") (Some "Bearer h")) = Some "q" ∧
  handshake_token (mkHandshake None None (Some "Bearer ")) = Some "" ∧
  replace_first "Bearer " "" "x Bearer y Bearer z" = "x y Bearer z".
Proof. vm_compute. done. Qed.

(** The reasons on the sample deployment: no token, an expired token, a
    malformed token, a token for nobody, a deactivated account. *)
Example denial_reasons_demo :
  socketAuth (H := demo) (users demo_init) (mkHandshake None (Some "") None) true
    = Denied "Authentication required" ∧
  socketAuth (H := demo) (users demo_init) (mkHandshake (Some "expired") None None) true
    = Denied "Token expired" ∧
  socketAuth (H := demo) (users demo_init) (mkHandshake None (Some "x.y.z") None) true
    = Denied "Invalid token" ∧
  socketAuth (H := demo) (users demo_init) (bearer nobody) true
    = Denied "User not found" ∧
  socketAuth (H := demo) (users demo_init) (bearer "uc") true
    = Denied "Account deactivated" ∧
  socketAuth (H := demo) (users demo_init) (bearer "ua") true
    = Granted "ua" (select_minus_password alice).
Proof. vm_compute. done. Qed.

(** ** Rooms named by the caller *)

(** Dave's socket d1 names Bob's id in join-room and is then delivered
    Alice's message to Bob. *)
Lemma join_room_enters_personal_room_witness :
  let st1 := (handle (H := demo) demo_four (JoinRoom "d1" "ub")).1 in
  "d1" ∈ room_members st1 "ub" ∧
  ∃ p, receives (handle (H := demo) st1 (SendMessage "a1" hi_bob 10 all_ok)).2
         "d1" "receive-message" p.
Proof.
  destruct (join_room_enters_personal_room (H := demo) demo_four "d1"
              (connected_socket "d1" "ud" dave) "ub") as [Hin Hleak];
    [vm_compute; reflexivity|].
  split; [exact Hin|].
  apply (Hleak "a1" (connected_socket "a1" "ua" alice) hi_bob 10 all_ok);
    try (vm_compute; reflexivity); discriminate.
Defined.

(** ** What a send writes *)

(** After Alice's send at time 10 her record differs from the old one in
    [updatedAt] as well as in [lastSeen]; and when she sends to herself the
    record that changes is the recipient's. *)
Lemma send_also_stamps_updatedAt :
  let st' := (handle (H := demo) demo_live (SendMessage "a1" hi_bob 10 all_ok)).1 in
  let self := (handle (H := demo) demo_live
                 (SendMessage "a1" (mkSendData "ua" "note" None) 10 all_ok)).1 in
  (updatedAt <$> users demo_live !! "ua") = Some 0 ∧
  (updatedAt <$> users st' !! "ua") = Some 10 ∧
  ¬ only_lastSeen_written demo_live st' "ua" 10 ∧
  users self !! "ua" ≠ users demo_live !! "ua".
Proof.
  intros st' self. split; [vm_compute; reflexivity|].
  assert (Hnew : (updatedAt <$> users st' !! "ua") = Some 10)
    by (vm_compute; reflexivity).
  split; [exact Hnew|]. split.
  - intros Honly.
    specialize (Honly alice). rewrite Honly in Hnew by (vm_compute; reflexivity).
    discriminate Hnew.
  - intros Hsame.
    assert (Hseen : (lastSeen <$> users self !! "ua") = Some 10)
      by (vm_compute; reflexivity).
    rewrite Hsame in Hseen. vm_compute in Hseen. discriminate Hseen.
Qed.

Lemma send_touches_sender_only_witness :
  let st' := (handle (H := demo) demo_live (SendMessage "a1" hi_bob 10 all_ok)).1 in
  (∃ u', users st' !! "ua" = Some u' ∧ lastSeen u' = 10 ∧ updatedAt u' = 10 ∧
         isOnline u' = isOnline alice ∧ same_profile alice u') ∧
  users st' !! "ub" = users demo_live !! "ub".
Proof.
  destruct (send_touches_sender_only (H := demo) demo_live "a1"
              (connected_socket "a1" "ua" alice) hi_bob 10)
    as (Hsender & Hothers & _); try (vm_compute; reflexivity).
  split.
  - apply Hsender. vm_compute. reflexivity.
  - apply Hothers. discriminate.
Defined.

(** * The further properties on the sample deployment *)

Lemma demo_live_store_wf : store_wf demo_live.
Proof.
  split; [intros d Hd; by apply elem_of_nil in Hd|apply NoDup_nil_2].
Qed.

Lemma message_ids_stay_unique_witness :
  store_wf (run (H := demo) demo_live
              [SendMessage "a1" hi_bob 10 all_ok;
               SendMessage "b1" (mkSendData "ua" "hello" None) 11 all_ok]).1.
Proof.
  apply (message_ids_stay_unique (H := demo)). exact demo_live_store_wf.
Defined.

Lemma receive_message_carries_sent_document_witness :
  let sa := connected_socket "a1" "ua" alice in
  let res := handle (H := demo) demo_live (SendMessage "a1" hi_bob 10 all_ok) in
  let sent := PMessage (Some (populate (users demo_live) (outgoing demo_live sa hi_bob))) in
  receives res.2 "b2" "receive-message" sent ∧
  receives res.2 "a1" "message-sent" sent.
Proof.
  apply (receive_message_carries_sent_document (H := demo) demo_live
           "a1" (connected_socket "a1" "ua" alice)
           "b2" (connected_socket "b2" "ub" bob) hi_bob 10 all_ok);
    try (vm_compute; reflexivity); try discriminate.
  exact demo_live_store_wf.
Defined.

Lemma socket_identity_is_stable_witness :
  ∃ s', sockets (run (H := demo) demo_live
                   [JoinRoom "b1" "lobby"; SendMessage "b1" hi_bob 10 all_ok;
                    Disconnect "b2" 11 true; LeaveRoom "b1" "ub"]).1 !! "b1"
        = Some s' ∧
        userId s' = userId (connected_socket "b1" "ub" bob) ∧
        user s' = user (connected_socket "b1" "ub" bob).
Proof.
  apply (socket_identity_is_stable (H := demo)); [vm_compute; reflexivity|].
  intros inp Hin. repeat (apply elem_of_cons in Hin as [->|Hin]);
    try reflexivity. by apply elem_of_nil in Hin.
Defined.

Lemma unconnected_receives_nothing_witness :
  Forall (λ e, "b1" ∉ recipients e)
    (run (H := demo) (handle (H := demo) demo_live (Disconnect "b1" 9 true)).1
       [SendMessage "a1" hi_bob 10 all_ok;
        Typing "a1" (mkTypingData "ub" true);
        Disconnect "b2" 11 true]).2.
Proof.
  apply Forall_forall.
  apply (unconnected_receives_nothing (H := demo)); [vm_compute; reflexivity|].
  intros inp Hin. repeat (apply elem_of_cons in Hin as [->|Hin]);
    try reflexivity. by apply elem_of_nil in Hin.
Defined.

Lemma connection_then_direct_message_witness :
  let res := handle (H := demo) demo_alone (Connection "b1" (bearer "ub") true) in
  sockets res.1 !! "b1"
    = Some (mkSocket "ub" (select_minus_password bob) {["ub"; "b1"]}) ∧
  users res.1 = users demo_alone ∧ res.2 = [] ∧
  ∃ p, receives (handle (H := demo) res.1 (SendMessage "a1" hi_bob 10 all_ok)).2
         "b1" "receive-message" p.
Proof.
  destruct (connection_then_direct_message (H := demo) demo_alone "b1"
              (bearer "ub") true "ub" (select_minus_password bob))
    as (Hsock & Husers & _ & Hquiet & Hdm); try (vm_compute; reflexivity).
  split; [exact Hsock|]. split; [exact Husers|]. split; [exact Hquiet|].
  apply (Hdm "a1" (connected_socket "a1" "ua" alice) hi_bob 10 all_ok);
    try (vm_compute; reflexivity); discriminate.
Defined.

Lemma join_room_membership_witness :
  let res := handle (H := demo) demo_live (JoinRoom "a1" "lobby") in
  room_members res.1 "lobby" = room_members demo_live "lobby" ∪ {["a1"]} ∧
  res.2 = [mkEmission {["a1"]} "joined-room" (PRoom "lobby")].
Proof.
  destruct (join_room_membership (H := demo) demo_live "a1"
              (connected_socket "a1" "ua" alice) "lobby")
    as (Hroom & _ & _ & _ & Hack); [vm_compute; reflexivity|].
  split; [exact Hroom|exact Hack].
Defined.

(** b1 leaves Bob's personal room and no longer gets Alice's message. *)
Lemma leave_room_stops_delivery_witness :
  let st1 := (handle (H := demo) demo_live (LeaveRoom "b1" "ub")).1 in
  room_members st1 "ub" = room_members demo_live "ub" ∖ {["b1"]} ∧
  Forall (λ e, event e = "receive-message" → "b1" ∉ recipients e)
    (handle (H := demo) st1 (SendMessage "a1" hi_bob 10 all_ok)).2.
Proof.
  destruct (leave_room_stops_delivery (H := demo) demo_live "b1"
              (connected_socket "b1" "ub" bob) "ub")
    as [Hout Hsilent]; [vm_compute; reflexivity|].
  split; [exact Hout|]. apply Forall_forall. intros e He.
  by apply (Hsilent "a1" hi_bob 10 all_ok e).
Defined.

Lemma join_then_leave_restores_witness :
  (handle (H := demo) (handle (H := demo) demo_live (JoinRoom "a1" "lobby")).1
     (LeaveRoom "a1" "lobby")).1 = demo_live.
Proof.
  apply (join_then_leave_restores (H := demo) demo_live "a1"
           (connected_socket "a1" "ua" alice) "lobby");
    [vm_compute; reflexivity|].
  vm_compute. intros Hin. discriminate Hin.
Defined.

Lemma presence_helpers_noop_on_failure_witness :
  exec (handleOnlineStatus "b1" (connected_socket "b1" "ub" bob) 5 false) demo_live
    = (demo_live, []) ∧
  exec (handleDisconnection "b1" (connected_socket "b1" "ub" bob) 5 6 false) demo_live
    = (demo_live, []).
Proof.
  apply presence_helpers_noop_on_failure. by left.
Defined.

Lemma online_then_disconnection_witness :
  let socket := connected_socket "b1" "ub" bob in
  let r1 := exec (handleOnlineStatus "b1" socket 5 true) demo_live in
  let r2 := exec (handleDisconnection "b1" socket 7 8 true) r1.1 in
  sockets r2.1 = sockets demo_live ∧
  users r2.1 = alter (go_offline 7) "ub" (users demo_live) ∧
  online r2.1 "ub" = false ∧
  r1.2 ++ r2.2 =
    [mkEmission (dom (sockets demo_live) ∖ {["b1"]}) "user:status"
       (PStatus "ub" "online" None);
     mkEmission (dom (sockets demo_live) ∖ {["b1"]}) "user:status"
       (PStatus "ub" "offline" (Some 8))].
Proof.
  apply (online_then_disconnection demo_live "b1"
           (connected_socket "b1" "ub" bob) 5 7 8);
    try (vm_compute; reflexivity).
  vm_compute. intros Hin. discriminate Hin.
Defined.

Lemma joinChatRoom_keeps_user_rooms_witness :
  let socket := connected_socket "a1" "ua" alice in
  let st1 := (exec (joinChatRoom "a1" socket "ub") demo_live).1 in
  room_members st1 "user:ub" = room_members demo_live "user:ub" ∧
  Forall (λ e, "a1" ∈ recipients e)
    (exec (emitToChatRoom "ub" "notice" (PRoom "ub")) st1).2.
Proof.
  destruct (joinChatRoom_keeps_user_rooms demo_live "a1"
              (connected_socket "a1" "ua" alice) "ub")
    as [Hkeep Hreach]; [vm_compute; reflexivity|].
  split; [exact (Hkeep "ub")|]. apply Forall_forall. intros e He.
  apply (Hreach eq_refl ltac:(discriminate) "notice" (PRoom "ub") e He).
Defined.

Lemma chat_room_round_trip_witness :
  let socket := connected_socket "a1" "ua" alice in
  let r1 := joinChatRoom "a1" socket "lobby" demo_live in
  let r2 := leaveChatRoom "a1" socket "lobby" r1.1.2 in
  r2.1.2 = demo_live ∧ r1.1.1 = r2.1.1.
Proof.
  destruct (chat_room_round_trip demo_live "a1"
              (connected_socket "a1" "ua" alice) "lobby")
    as (Hback & Hsame & _); [vm_compute; reflexivity| |].
  - vm_compute. intros Hin. discriminate Hin.
  - split; [exact Hback|exact Hsame].
Defined.

Lemma emitToUser_reaches_only_joined_witness :
  let st1 := (handle (H := demo) demo_alone (Connection "b1" (bearer "ub") true)).1 in
  Forall (λ e, "b1" ∉ recipients e)
    (exec (emitToUser "ub" "notice" (PRoom "x")) st1).2.
Proof.
  destruct (emitToUser_reaches_only_joined (H := demo) demo_alone "b1"
              (bearer "ub") true "ub" (select_minus_password bob)
              "notice" (PRoom "x"))
    as [Hmiss _]; try (vm_compute; reflexivity); [discriminate|].
  apply Forall_forall. exact Hmiss.
Defined.

(** ** The rate limiters *)

(** Three events a second apart pass a limit of two per five seconds only
    twice; the next one after the window passes again. *)
Example limiter_demo :
  (limiter_run 2 5000 ∅ [("s", 0); ("s", 1000); ("s", 2000); ("s", 5500)]).1
  = [("s", 0, true); ("s", 1000, true); ("s", 2000, false); ("s", 5500, true)].
Proof. vm_compute. reflexivity. Qed.

Lemma rate_limit_guarantee_witness :
  (Z.of_nat (length (filter (λ x, (5500 - 5000 < x)%Z)
                       (accepted "s"
                          (limiter_run 2 5000 ∅
                             [("s", 0); ("s", 1000); ("s", 2000); ("s", 5500)]%Z).1)))
   ≤ Z.max 0 2)%Z.
Proof.
  apply rate_limit_guarantee.
  - cbn. repeat split; intros c Hc;
      repeat (apply elem_of_cons in Hc as [->|Hc]); cbn; try lia;
      by apply elem_of_nil in Hc.
  - intros c Hc. repeat (apply elem_of_cons in Hc as [->|Hc]); cbn; try lia.
    by apply elem_of_nil in Hc.
Defined.

Lemma rate_limit_step_witness :
  (createSocketRateLimit 2 5000 {["s" := [0; 1000]%Z]} "s" 7000).1 = true ∧
  (createSocketRateLimit 2 5000 {["s" := [0; 1000]%Z]} "s" 7000).2 !! "s"
  = Some [7000%Z].
Proof.
  destruct (rate_limit_step 2 5000 {["s" := [0; 1000]%Z]} "s" 7000)
    as (_ & _ & Hagain).
  apply Hagain; [lia|].
  intros x Hx. vm_compute in Hx.
  repeat (apply elem_of_cons in Hx as [->|Hx]); try lia. by apply elem_of_nil in Hx.
Defined.

Lemma createRateLimit_answer_witness :
  (createRateLimit 900000 0 "Too many requests" ∅ "10.0.0.1" 0).1
    = TooManyRequests 429 "Too many requests" (Some 900%Z) ∧
  ∃ seconds, Some 900%Z = Some seconds ∧
             (900000 ≤ 1000 * seconds < 900000 + 1000)%Z.
Proof.
  assert (Hrefused : (createRateLimit 900000 0 "Too many requests" ∅ "10.0.0.1" 0).1
                     = TooManyRequests 429 "Too many requests" (Some 900%Z))
    by (vm_compute; reflexivity).
  split; [exact Hrefused|].
  destruct (createRateLimit_answer 900000 0 "Too many requests" ∅ "10.0.0.1" 0)
    as (_ & _ & Hanswer).
  destruct (Hanswer 429%nat "Too many requests" (Some 900%Z) Hrefused)
    as (_ & _ & Hretry).
  apply Hretry. vm_compute. split; discriminate.
Defined.

(** ** The HTTP middleware *)

Lemma authMiddleware_implies_socketAuth_witness :
  ∃ uid, socketAuth (H := demo) (users demo_init)
           (mkHandshake None None (Some "Bearer jwt:ua")) true
         = Granted uid (select_minus_password alice).
Proof.
  apply (authMiddleware_implies_socketAuth (H := demo)).
  vm_compute. reflexivity.
Defined.

Lemma optionalAuth_agrees_witness :
  optionalAuth (H := demo) (users demo_init) (Some "Bearer ") true
    = Some (select_minus_password alice) ↔
  authMiddleware (H := demo) (users demo_init) (Some "Bearer ") true
    = Next (select_minus_password alice).
Proof.
  apply (optionalAuth_agrees (H := demo)).
  exists "JsonWebTokenError". vm_compute. reflexivity.
Defined.

(** The two HTTP middlewares and the socket middleware on the sample
    deployment: a raw token without the Bearer prefix is refused over HTTP
    and admitted on a socket. *)
Example middleware_demo :
  authMiddleware (H := demo) (users demo_init) (Some "jwt:ua") true
    = Rejected 401 "Invalid token format" ∧
  socketAuth (H := demo) (users demo_init) (mkHandshake None None (Some "jwt:ua")) true
    = Granted "ua" (select_minus_password alice) ∧
  authMiddleware (H := demo) (users demo_init) (Some "Bearer jwt:uc") true
    = Rejected 401 "Account is deactivated" ∧
  optionalAuth (H := demo) (users demo_init) (Some "Bearer jwt:uc") true = None ∧
  optionalSocketAuth (H := demo) (users demo_init) (bearer "ub") true
    = Some ("ub", select_minus_password bob).
Proof. vm_compute. done. Qed.

(** ** The REST controller *)

(** A request whose sender id has no stored user: the message is stored and
    the answer is 500; for a stored sender it is 201. *)
Example sendMessage_demo :
  (∃ st', sendMessage (H := demo) nobody (mkSendBody "ub" "hi" None) 10
            (mkRestOutcome true true true) demo_init
          = (Some (mkResponse 500 "Server error sending message" None), st', []) ∧
          length (messages st') = 1%nat) ∧
  (∃ st', sendMessage (H := demo) "ua" (mkSendBody "ub" "hi" None) 10
            (mkRestOutcome true true true) demo_init
          = (Some (mkResponse 201 "Message sent successfully" (Some 0%N)), st', [])) ∧
  (sendMessage (H := demo) "ua" (mkSendBody nobody "hi" None) 10
     (mkRestOutcome true true true) demo_init).1.1
  = Some (mkResponse 404 "Recipient not found" None).
Proof.
  split; [|split].
  - eexists. split; [vm_compute; reflexivity|reflexivity].
  - eexists. vm_compute. reflexivity.
  - vm_compute. reflexivity.
Qed.
